(** * The Financial Gearbox: the allocation core of [financial_gearbox.py]

    A shallow embedding of the class [FinancialGearbox]: its ratio table
    [GEAR_RATIOS], the constructor, [set_life_stage], [calculate_allocation]
    and [display_allocation].

    - A Python [float] is an IEEE-754 binary64 number: Rocq's primitive
      [float], whose operations are specified by [SpecFloat] at precision 53
      and maximal exponent 1024.  A decimal literal denotes the nearest
      binary64 number, in Python as here.
    - A Python [dict] keyed by strings is a [gmap string _].
    - A method is a function of the object store that either returns a value
      or raises, and gives the store after the call in both cases. *)

From Stdlib Require Import ZArith Lia Floats Bool.
From stdpp Require Import gmap strings pretty.

Set Warnings "-inexact-float".
Local Open Scope string_scope.

(** ** Data *)

(** A gear ratio: (Savings, Expenses, Investments). *)
Abbreviation ratio := (float * float * float)%type.

(** The dictionary the class body binds to [GEAR_RATIOS]. *)
Definition GEAR_RATIOS : gmap string ratio :=
  <["Student"    := (0.10, 0.80, 0.10)%float]>
  (<["First Job"  := (0.30, 0.50, 0.20)%float]>
  (<["Family"     := (0.25, 0.55, 0.20)%float]>
  (<["Retirement" := (0.50, 0.30, 0.20)%float]> ∅))).

(** The instance attributes set by [__init__]. *)
Record FinancialGearbox : Type := mkGearbox {
  current_stage : option string;   (* [None] until a stage is selected *)
  income : float;
  allocations : gmap string float
}.

(** The part of the program state the methods can reach through [self]:
    the class attribute (one dictionary object shared by all instances) and
    the instance itself.  [self.GEAR_RATIOS] reads [class_GEAR_RATIOS]. *)
Record Store : Type := mkStore {
  class_GEAR_RATIOS : gmap string ratio;
  self : FinancialGearbox
}.

Inductive exn : Type :=
| ValueError (msg : string)
| KeyError (key : string).

(** The result of a call: a value or an exception, and the store it leaves. *)
Inductive outcome (A : Type) : Type :=
| Returned (v : A) (σ : Store)
| Raised (e : exn) (σ : Store).
Arguments Returned {A} v σ.
Arguments Raised {A} e σ.

Definition store_of {A} (o : outcome A) : Store :=
  match o with Returned _ σ | Raised _ σ => σ end.

Definition set_self (σ : Store) (g : FinancialGearbox) : Store :=
  {| class_GEAR_RATIOS := class_GEAR_RATIOS σ; self := g |}.

(** ** Operations *)

(** [__init__]. *)
Definition init : FinancialGearbox :=
  {| current_stage := None; income := 0.0%float; allocations := ∅ |}.

(** [FinancialGearbox()] in a program where the class was just defined. *)
Definition new_gearbox : Store :=
  {| class_GEAR_RATIOS := GEAR_RATIOS; self := init |}.

Definition set_life_stage (stage : string) (σ : Store) : outcome bool :=
  if decide (is_Some (class_GEAR_RATIOS σ !! stage)) then
    Returned true
      (set_self σ {| current_stage := Some stage;
                     income := income (self σ);
                     allocations := allocations (self σ) |})
  else Returned false σ.

Definition msg_unset : string :=
  "Life stage must be set before calculating allocation".
Definition msg_negative : string := "Income must be non-negative".

Definition calculate_allocation (income : float) (σ : Store)
  : outcome (gmap string float) :=
  match current_stage (self σ) with
  | None => Raised (ValueError msg_unset) σ
  | Some stage =>
    if (income <? 0)%float then Raised (ValueError msg_negative) σ
    else
      let σ1 := set_self σ {| current_stage := Some stage;
                              income := income;
                              allocations := allocations (self σ) |} in
      match class_GEAR_RATIOS σ1 !! stage with
      | None => Raised (KeyError stage) σ1
      | Some (savings_ratio, expenses_ratio, investments_ratio) =>
        let result : gmap string float :=
          <["Savings" := (income * savings_ratio)%float]>
          (<["Expenses" := (income * expenses_ratio)%float]>
          (<["Investments" := (income * investments_ratio)%float]> ∅)) in
        Returned result
          (set_self σ1 {| current_stage := Some stage;
                          income := income;
                          allocations := result |})
      end
  end.

(** [display_allocation] writes lines to standard output and returns [None];
    the value of the outcome is the list of strings passed to [print].
    [money x] stands for Python's [format(x, ",.2f")]. *)
Section Display.
Variable money : float -> string.

Definition nl : string := String (Ascii.ascii_of_nat 10) EmptyString.

Fixpoint repeat_str (s : string) (n : nat) : string :=
  match n with O => "" | S n => s ++ repeat_str s n end.

Definition str_of_stage (s : option string) : string :=
  match s with Some s => s | None => "None" end.

Definition bar : string := repeat_str "=" 50%nat.

Definition display_allocation (σ : Store) : outcome (list string) :=
  let g := self σ in
  if decide (allocations g = ∅) then
    Returned ["No allocation calculated yet."] σ
  else
    match allocations g !! "Savings" with
    | None => Raised (KeyError "Savings") σ
    | Some s =>
    match allocations g !! "Expenses" with
    | None => Raised (KeyError "Expenses") σ
    | Some e =>
    match allocations g !! "Investments" with
    | None => Raised (KeyError "Investments") σ
    | Some i =>
      Returned
        [ nl ++ bar;
          "Financial Gearbox - " ++ str_of_stage (current_stage g) ++ " Stage";
          bar;
          "Total Income: ₹" ++ money (income g);
          nl ++ "Budget Allocation:";
          "  Savings:      ₹" ++ money s;
          "  Expenses:     ₹" ++ money e;
          "  Investments:  ₹" ++ money i;
          bar ++ nl ] σ
    end end end.
End Display.

(** ** Sequences of method calls *)

Inductive call : Type :=
| SetLifeStage (stage : string)
| CalculateAllocation (income : float)
| DisplayAllocation.

Definition is_calculate (c : call) : bool :=
  match c with CalculateAllocation _ => true | _ => false end.

Section Run.
Variable money : float -> string.

(** The store after one call, whether it returned or raised. *)
Definition step (σ : Store) (c : call) : Store :=
  match c with
  | SetLifeStage stage => store_of (set_life_stage stage σ)
  | CalculateAllocation income => store_of (calculate_allocation income σ)
  | DisplayAllocation => store_of (display_allocation money σ)
  end.

Definition run (cs : list call) (σ : Store) : Store := foldl step σ cs.
End Run.

(** ** binary64 rounding, in closed form

    [SpecFloat] rounds a mantissa by shifting it right one bit at a time
    while keeping a round bit and a sticky bit.  The definitions below give
    the same results without the iteration. *)

Local Open Scope Z_scope.

(** The record after [k >= 1] one-bit shifts of an exact mantissa [m]. *)
Definition shr_k (m k : Z) : shr_record :=
  Build_shr_record (m / 2 ^ k) (Z.odd (m / 2 ^ (k - 1)))
                   (negb (m mod 2 ^ (k - 1) =? 0)).

(** [m / 2^k] rounded to nearest, ties to even. *)
Definition rne (m k : Z) : Z :=
  round_nearest_even (shr_m (shr_k m k)) (loc_of_shr_record (shr_k m k)).

(** The exponent of the last place of a binary64 number of magnitude
    [2^e]: [fexp] at precision 53 and minimal exponent -1074. *)
Definition fexp64 (e : Z) : Z := Z.max (e - 53) (-1074).

(** The float of sign [s], mantissa [m] and exponent [e]; infinite when the
    exponent exceeds the largest one, 971. *)
Definition SF_of (s : bool) (m e : Z) : spec_float :=
  match m with
  | Z0 => S754_zero s
  | Zpos p => if e <=? 971 then S754_finite s p e else S754_infinity s
  | Zneg _ => S754_nan
  end.

(** [binary_round_aux] on an exact [M * 2^E]. *)
Definition round64 (s : bool) (M E : Z) : spec_float :=
  let n := fexp64 (Zdigits2 M + E) - E in
  if n <=? 0 then SF_of s M E
  else
    let m2 := rne M n in
    if m2 =? 2 ^ 53 then SF_of s (2 ^ 52) (E + n + 1) else SF_of s m2 (E + n).

(** ** Exact values and the tolerance *)

(** The value of a finite float in units of 2^-1074, the smallest positive
    binary64 number: every finite binary64 number is an integer multiple of
    it.  Infinities and NaN have none. *)
Definition SF2ulps (x : spec_float) : option Z :=
  match x with
  | S754_zero _ => Some 0
  | S754_finite s m e => Some (cond_Zopp s (Zpos m * 2 ^ (e + 1074)))
  | _ => None
  end.

Definition ulps (x : float) : option Z := SF2ulps (Prim2SF x).

(** Sums from 2^1024 - 2^970 on round to infinity; in units of 2^-1074. *)
Definition overflow_threshold : Z := 2 ^ 2098 - 2 ^ 2044.

(** The largest finite binary64 number, in units of 2^-1074. *)
Definition max_ulps : Z := 2 ^ 2098 - 2 ^ 2045.

(** [|total - income| <= 1e-9 * |income|], on exact values. *)
Definition within_1e9 (total income : Z) : Prop :=
  10 ^ 9 * Z.abs (total - income) <= Z.abs income.

(** The exact sum of the three amounts is within 1e-9 of the income. *)
Definition exact_sum_within (s e i income : float) : Prop :=
  exists us ue ui ux,
    ulps s = Some us /\ ulps e = Some ue /\ ulps i = Some ui /\
    ulps income = Some ux /\ within_1e9 (us + ue + ui) ux.

(** The float [s + e + i], added as Python adds, is finite and within 1e-9
    of the income. *)
Definition float_sum_within (s e i income : float) : Prop :=
  exists ut ux,
    ulps (s + e + i) = Some ut /\ ulps income = Some ux /\ within_1e9 ut ux.

Definition products_sum_within (x rs re ri : float) : Prop :=
  exact_sum_within (x * rs) (x * re) (x * ri) x /\
  float_sum_within (x * rs) (x * re) (x * ri) x.

(** The triples of [GEAR_RATIOS]. *)
Definition table_triple (rs re ri : float) : Prop :=
  (rs, re, ri) = (0.10, 0.80, 0.10)%float \/
  (rs, re, ri) = (0.30, 0.50, 0.20)%float \/
  (rs, re, ri) = (0.25, 0.55, 0.20)%float \/
  (rs, re, ri) = (0.50, 0.30, 0.20)%float.

(** The exact sum of three ratios is within 2^-54 of 1. *)
Definition exact_sum_near_one (rs re ri : float) : Prop :=
  exists us ue ui,
    ulps rs = Some us /\ ulps re = Some ue /\ ulps ri = Some ui /\
    2 ^ 54 * Z.abs (us + ue + ui - 2 ^ 1074) <= 2 ^ 1074.

(** [r] is a positive binary64 number [m * 2^e] within half a unit of its
    last place of the fraction [num / den]: what a decimal literal
    denotes in Python. *)
Definition nearest_binary64 (r : float) (num den : Z) : bool :=
  match Prim2SF r with
  | S754_finite false m e =>
    (e <? 0) && (2 * Z.abs (Zpos m * den - num * 2 ^ (- e)) <=? den)
  | _ => false
  end.

(** ** Predicates used in the statements *)

Definition categories : gset string := {["Savings"; "Expenses"; "Investments"]}.

Definition stage_names : gset string :=
  {["Student"; "First Job"; "Family"; "Retirement"]}.

(** A method never raises: on every store it returns a value. *)
Definition never_raises {A} (f : Store -> outcome A) : Prop :=
  forall σ, exists v σ', f σ = Returned v σ'.

(** The current stage is unset or a key of the table: what the constructor
    establishes and [set_life_stage] keeps. *)
Definition stage_ok (σ : Store) : Prop :=
  match current_stage (self σ) with
  | None => True
  | Some stage => is_Some (class_GEAR_RATIOS σ !! stage)
  end.

(** An income the sum property is proved for: zero, or a finite number from
    the smallest normal one, 2^-1022, on. *)
Definition zero_or_normal (income : float) : Prop :=
  (income =? 0)%float = true \/
  ((0x1p-1022 <=? income)%float = true /\ (income <? infinity)%float = true).

(** ** Stores reached by method calls, and what is printed *)

(** The dictionary [calculate_allocation] builds. *)
Definition allocation_of (income rs re ri : float) : gmap string float :=
  <["Savings" := (income * rs)%float]>
  (<["Expenses" := (income * re)%float]>
  (<["Investments" := (income * ri)%float]> ∅)).

(** What holds of every store reached from a new object by method calls. *)
Record reachable_inv (σ : Store) : Prop := mk_reachable_inv {
  inv_table : class_GEAR_RATIOS σ = GEAR_RATIOS;
  inv_stage : stage_ok σ;
  inv_income : (income (self σ) <? 0)%float = false;
  inv_allocations :
    (allocations (self σ) = ∅ /\ income (self σ) = 0%float) \/
    (exists stage rs re ri,
        GEAR_RATIOS !! stage = Some (rs, re, ri) /\
        current_stage (self σ) <> None /\
        allocations (self σ) = allocation_of (income (self σ)) rs re ri)
}.

(** The lines [display_allocation] prints for a stage, an income and three
    amounts. *)
Definition report (money : float -> string)
           (stage : option string) (income s e i : float) : list string :=
  [ nl ++ bar;
    "Financial Gearbox - " ++ str_of_stage stage ++ " Stage";
    bar;
    "Total Income: ₹" ++ money income;
    nl ++ "Budget Allocation:";
    "  Savings:      ₹" ++ money s;
    "  Expenses:     ₹" ++ money e;
    "  Investments:  ₹" ++ money i;
    bar ++ nl ].

(** ** Amounts and the income *)

(** The exact value of the amount [a] lies between 0 and the income's. *)
Definition amount_in_range (a income : float) : Prop :=
  exists ua ux, ulps a = Some ua /\ ulps income = Some ux /\ 0 <= ua <= ux.

(** The exact sum of the amounts is within 1.5 * 2^-1074 + 2^-52 * income
    of the income. *)
Definition exact_sum_error_bounded (s e i income : float) : Prop :=
  exists us ue ui ux,
    ulps s = Some us /\ ulps e = Some ue /\ ulps i = Some ui /\
    ulps income = Some ux /\
    2 ^ 52 * Z.abs (us + ue + ui - ux) <= 3 * 2 ^ 51 + ux.

(** The exact value of the amount [a] is within 1e-9, relatively, of
    [percent / 100] of the income's. *)
Definition within_1e9_of_percent (a income : float) (percent : Z) : Prop :=
  exists ua ux,
    ulps a = Some ua /\ ulps income = Some ux /\
    10 ^ 9 * Z.abs (100 * ua - percent * ux) <= percent * ux.

(** The decimal literals of [GEAR_RATIOS], in hundredths. *)
Definition GEAR_PERCENTS : gmap string (Z * Z * Z) :=
  <["Student"    := (10, 80, 10)]>
  (<["First Job"  := (30, 50, 20)]>
  (<["Family"     := (25, 55, 20)]>
  (<["Retirement" := (50, 30, 20)]> ∅))).

(** ** The command-line program [main]

    [main] reads lines from standard input, writes to standard output and
    calls the plot methods.  Its world is the lines still to be read, what
    was written so far, and the object store.  The plot methods drive
    matplotlib and are recorded as calls only. *)

Inductive event : Type :=
| Print (line : string)          (* [print(line)] *)
| Prompt (text : string)         (* the prompt [input(text)] writes *)
| PlotPie                        (* [gearbox.plot_pie_chart()] *)
| PlotBar.                       (* [gearbox.plot_bar_chart()] *)

Record world : Type := mkWorld {
  stdin : list string;
  stdout : list event;
  heap : Store
}.

(** Why a run of statements stops early: an exception nobody caught, or
    the [return] statement. *)
Inductive signal : Type :=
| Uncaught (e : exn)
| EOFError
| Return_.

Definition io (A : Type) : Type := world -> (A + signal) * world.

Definition io_ret {A} (a : A) : io A := fun w => (inl a, w).

Definition io_bind {A B} (m : io A) (k : A -> io B) : io B :=
  fun w => match m w with
           | (inl a, w') => k a w'
           | (inr s, w') => (inr s, w')
           end.

#[global] Instance io_mret : MRet io := @io_ret.
#[global] Instance io_mbind : MBind io := fun A B k m => io_bind m k.

Definition emit (e : event) : io unit :=
  fun w => (inl tt, {| stdin := stdin w; stdout := stdout w ++ [e];
                       heap := heap w |}).

Definition print (line : string) : io unit := emit (Print line).

(** [input(text)]: writes the prompt, then takes the next line, or raises
    [EOFError] when there is none. *)
Definition read_line : io string :=
  fun w => match stdin w with
           | [] => (inr EOFError, w)
           | line :: rest =>
             (inl line, {| stdin := rest; stdout := stdout w;
                           heap := heap w |})
           end.

Definition input (text : string) : io string :=
  emit (Prompt text) ;; read_line.

Definition return_ {A} : io A := fun w => (inr Return_, w).

(** A method call on the gearbox: its exception is not caught. *)
Definition invoke {A} (method : Store -> outcome A) : io A :=
  fun w => match method (heap w) with
           | Returned v σ =>
             (inl v, {| stdin := stdin w; stdout := stdout w; heap := σ |})
           | Raised e σ =>
             (inr (Uncaught e),
              {| stdin := stdin w; stdout := stdout w; heap := σ |})
           end.

(** [gearbox = FinancialGearbox()]. *)
Definition construct : io unit :=
  fun w => (inl tt, {| stdin := stdin w; stdout := stdout w;
                       heap := set_self (heap w) init |}).

Fixpoint for_each {A} (l : list A) (body : A -> io unit) : io unit :=
  match l with
  | [] => mret tt
  | a :: l => body a ;; for_each l body
  end.

(** The keys of [GEAR_RATIOS] in the order of the class body, which is the
    order Python iterates them in and which a [gmap] does not record. *)
Definition GEAR_RATIOS_keys : list string :=
  ["Student"; "First Job"; "Family"; "Retirement"].

Definition in_list (s : string) (l : list string) : bool :=
  bool_decide (s ∈ l).

Definition prompt_stage : string :=
  nl ++ "Enter life stage (Student/First Job/Family/Retirement): ".
Definition prompt_income : string := "Enter monthly income (₹): ".
Definition prompt_charts : string :=
  "Would you like to see visualizations? (pie/bar/both/none): ".
Definition error_stage (stage_input : string) : string :=
  "Error: '" ++ stage_input ++ "' is not a valid life stage.".
Definition error_negative : string := "Error: Income cannot be negative.".
Definition error_number : string :=
  "Error: Please enter a valid number for income.".

Section Main.
Variable money : float -> string.        (* [format(x, ",.2f")] *)
Variable whole : float -> string.        (* [format(x, ".0f")] *)
Variable float_of_str : string -> option float.
                                         (* [float(s)]; [None]: ValueError *)
Variable strip : string -> string.       (* [s.strip()] *)
Variable lower : string -> string.       (* [s.lower()] *)

Definition stage_line (i : nat) (stage : string) : io unit :=
  fun w =>
    match class_GEAR_RATIOS (heap w) !! stage with
    | None => (inr (Uncaught (KeyError stage)), w)
    | Some (r0, r1, r2) =>
      print ("  " ++ pretty i ++ ". " ++ stage
             ++ ": Savings " ++ whole (r0 * 100)%float
             ++ "%, Expenses " ++ whole (r1 * 100)%float
             ++ "%, Investments " ++ whole (r2 * 100)%float ++ "%") w
    end.

Definition main : io unit :=
  print "⚙ The Financial Gearbox - Automated Budget Allocation System" ;;
  print (repeat_str "=" 60) ;;
  construct ;;
  print (nl ++ "Available Life Stages:") ;;
  for_each (imap (fun i stage => (S i, stage)) GEAR_RATIOS_keys)
           (fun '(i, stage) => stage_line i stage) ;;
  print (nl ++ repeat_str "-" 60) ;;
  line ← input prompt_stage ;
  let stage_input := strip line in
  ok ← invoke (set_life_stage stage_input) ;
  (if negb ok
   then print (error_stage stage_input) ;; return_
   else mret tt) ;;
  text ← input prompt_income ;
  income_input ←
    match float_of_str text with
    | None => print error_number ;; return_
    | Some income_input =>
      if (income_input <? 0)%float
      then print error_negative ;; return_
      else mret income_input
    end ;
  allocations ← invoke (calculate_allocation income_input) ;
  lines ← invoke (display_allocation money) ;
  for_each lines print ;;
  answer ← input prompt_charts ;
  let chart_choice := lower (strip answer) in
  (if in_list chart_choice ["pie"; "both"] then emit PlotPie else mret tt) ;;
  (if in_list chart_choice ["bar"; "both"] then emit PlotBar else mret tt).

(** What [main] prints before its first question. *)
Definition banner : list event :=
  [ Print "⚙ The Financial Gearbox - Automated Budget Allocation System";
    Print (repeat_str "=" 60);
    Print (nl ++ "Available Life Stages:");
    Print ("  1. Student: Savings " ++ whole (0.10 * 100)%float
           ++ "%, Expenses " ++ whole (0.80 * 100)%float
           ++ "%, Investments " ++ whole (0.10 * 100)%float ++ "%");
    Print ("  2. First Job: Savings " ++ whole (0.30 * 100)%float
           ++ "%, Expenses " ++ whole (0.50 * 100)%float
           ++ "%, Investments " ++ whole (0.20 * 100)%float ++ "%");
    Print ("  3. Family: Savings " ++ whole (0.25 * 100)%float
           ++ "%, Expenses " ++ whole (0.55 * 100)%float
           ++ "%, Investments " ++ whole (0.20 * 100)%float ++ "%");
    Print ("  4. Retirement: Savings " ++ whole (0.50 * 100)%float
           ++ "%, Expenses " ++ whole (0.30 * 100)%float
           ++ "%, Investments " ++ whole (0.20 * 100)%float ++ "%");
    Print (nl ++ repeat_str "-" 60) ].

(** The plot calls [main] makes for an answer to its last question. *)
Definition charts (answer : string) : list event :=
  (if in_list (lower (strip answer)) ["pie"; "both"] then [PlotPie] else [])
  ++ (if in_list (lower (strip answer)) ["bar"; "both"] then [PlotBar]
      else []).

(** [main()] in a fresh process, with the lines [lines] on standard input. *)
Definition run_main (lines : list string) : (unit + signal) * world :=
  main {| stdin := lines; stdout := []; heap := new_gearbox |}.

End Main.

(** ** Lemmas on binary64 rounding *)

(** [digits2_pos p] is the number of binary digits of [p]. *)
Lemma digits2_pos_bounds (p : positive) :
  2 ^ (Zpos (digits2_pos p) - 1) <= Zpos p < 2 ^ Zpos (digits2_pos p).
Proof.
  induction p as [p IH|p IH|]; simpl digits2_pos;
    rewrite ?Pos2Z.inj_succ;
    try (replace (Z.succ (Zpos (digits2_pos p)) - 1)
           with (Z.succ (Zpos (digits2_pos p) - 1)) by lia;
         rewrite !Z.pow_succ_r by lia; lia).
  simpl. lia.
Qed.

(** [iter_pos] is iteration [Pos.to_nat p] times. *)
Lemma iter_pos_nat {A} (f : A -> A) (p : positive) (x : A) :
  SpecFloat.iter_pos f p x = Nat.iter (Pos.to_nat p) f x.
Proof.
  revert x. induction p as [p IH|p IH|]; intros x; simpl SpecFloat.iter_pos.
  - rewrite !IH, Pos2Nat.inj_xI, <- Nat.iter_add, <- Nat.iter_succ_r.
    f_equal. lia.
  - rewrite !IH, Pos2Nat.inj_xO, <- Nat.iter_add. f_equal. lia.
  - reflexivity.
Qed.

(** One shift: halve the mantissa, keep the bit shifted out as the round
    bit and accumulate the old round bit into the sticky bit. *)
Lemma shr_1_nonneg (m : Z) (r s : bool) :
  0 <= m ->
  shr_1 (Build_shr_record m r s) = Build_shr_record (m / 2) (Z.odd m) (r || s).
Proof.
  intros Hm. rewrite <- Z.div2_div.
  destruct m as [|[p|p|]|p]; try reflexivity. lia.
Qed.

Lemma shr_k_step (m k : Z) :
  0 <= m -> 1 <= k -> shr_1 (shr_k m k) = shr_k m (k + 1).
Proof.
  intros Hm Hk. unfold shr_k.
  assert (Hp : 0 < 2 ^ (k - 1)) by (apply Z.pow_pos_nonneg; lia).
  assert (Hk2 : 2 ^ k = 2 ^ (k - 1) * 2).
  { replace k with (Z.succ (k - 1)) at 1 by lia.
    rewrite Z.pow_succ_r by lia. lia. }
  rewrite shr_1_nonneg by (apply Z.div_pos; lia).
  replace (k + 1 - 1) with k by lia.
  f_equal.
  - rewrite Z.div_div by lia. rewrite Z.pow_add_r by lia. reflexivity.
  - rewrite Hk2, Z.rem_mul_r by lia.
    rewrite Zmod_odd.
    pose proof (Z.mod_pos_bound m (2 ^ (k - 1)) Hp) as Hb.
    destruct (Z.odd (m / 2 ^ (k - 1))); simpl.
    + symmetry. apply negb_true_iff, Z.eqb_neq. lia.
    + rewrite Z.mul_0_r, Z.add_0_r. reflexivity.
Qed.

Lemma iter_shr_1 (m : Z) (k : nat) :
  0 <= m ->
  Nat.iter (S k) shr_1 (Build_shr_record m false false) =
  shr_k m (Z.of_nat (S k)).
Proof.
  intros Hm. induction k as [|k IH].
  - change (Nat.iter 1 shr_1 ?x) with (shr_1 x).
    rewrite shr_1_nonneg by lia. unfold shr_k.
    change (Z.of_nat 1 - 1) with 0. change (Z.of_nat 1) with 1.
    rewrite Z.pow_0_r, Z.pow_1_r, Z.div_1_r, Z.mod_1_r. reflexivity.
  - change (Nat.iter (S (S k)) shr_1 ?x) with (shr_1 (Nat.iter (S k) shr_1 x)).
    rewrite IH, shr_k_step by lia. f_equal. lia.
Qed.

(** Shifting an exact mantissa right by [p] bits, in closed form. *)
Lemma shr_pos (m e : Z) (p : positive) :
  0 <= m ->
  shr (Build_shr_record m false false) e (Zpos p) =
  (shr_k m (Zpos p), e + Zpos p).
Proof.
  intros Hm. unfold shr. rewrite iter_pos_nat.
  destruct (Pos2Nat.is_succ p) as [k Hk]. rewrite Hk, iter_shr_1 by lia.
  rewrite <- Hk, positive_nat_Z. reflexivity.
Qed.

(** Rounding to nearest moves the mantissa by at most half a unit. *)
Lemma rne_bound (m k : Z) :
  0 <= m -> 1 <= k ->
  m / 2 ^ k <= rne m k <= m / 2 ^ k + 1 /\
  2 * Z.abs (rne m k * 2 ^ k - m) <= 2 ^ k.
Proof.
  intros Hm Hk. unfold rne, shr_k.
  assert (Hp : 0 < 2 ^ (k - 1)) by (apply Z.pow_pos_nonneg; lia).
  assert (Hk2 : 2 ^ k = 2 ^ (k - 1) * 2).
  { replace k with (Z.succ (k - 1)) at 1 by lia.
    rewrite Z.pow_succ_r by lia. lia. }
  pose proof (Z.div_mod m (2 ^ k) ltac:(lia)) as Hdm.
  assert (Hrem : m mod 2 ^ k =
                 m mod 2 ^ (k - 1) + 2 ^ (k - 1) * ((m / 2 ^ (k - 1)) mod 2)).
  { rewrite Hk2 at 1. apply Z.rem_mul_r; lia. }
  rewrite Zmod_odd in Hrem.
  pose proof (Z.mod_pos_bound m (2 ^ (k - 1)) Hp) as Hb.
  set (q := m / 2 ^ k) in *. set (h := 2 ^ (k - 1)) in *.
  set (a := m mod h) in *. rewrite Hrem in Hdm. clear Hrem.
  rewrite Hk2 in *. clearbody q h a.
  destruct (Z.odd (m / h)); destruct (Z.eqb_spec a 0) as [Ha|Ha];
    cbn [round_nearest_even loc_of_shr_record shr_m negb];
    try destruct (Z.even q); lia.
Qed.

(** ** binary64: the result of rounding an exact mantissa and exponent *)

Lemma fexp_fexp64 (e : Z) : fexp 53 1024 e = fexp64 e.
Proof. reflexivity. Qed.

Lemma Zdigits2_le_53 (m : Z) : 0 <= m < 2 ^ 53 -> Zdigits2 m <= 53.
Proof.
  intros Hm. destruct m as [|p|p]; simpl; try lia.
  pose proof (digits2_pos_bounds p) as [Hl _].
  destruct (Z_le_gt_dec (Zpos (digits2_pos p)) 53) as [|Hgt]; [assumption|].
  assert (2 ^ 53 <= 2 ^ (Zpos (digits2_pos p) - 1))
    by (apply Z.pow_le_mono_r; lia).
  lia.
Qed.

Lemma div_pow2_lt_53 (M : positive) (n : Z) :
  0 < n -> Zpos (digits2_pos M) - 53 <= n -> Zpos M / 2 ^ n < 2 ^ 53.
Proof.
  intros Hn Hd. pose proof (digits2_pos_bounds M) as [_ Hu].
  apply Z.div_lt_upper_bound; [apply Z.pow_pos_nonneg; lia|].
  rewrite <- Z.pow_add_r by lia.
  eapply Z.lt_le_trans; [exact Hu|]. apply Z.pow_le_mono_r; lia.
Qed.

(** [binary_round_aux] of an exact value is [round64]: after the first
    rounding the mantissa is at most 2^53, and only 2^53 itself needs the
    second shift. *)
Lemma binary_round_aux_round64 (s : bool) (M : positive) (E : Z) :
  binary_round_aux 53 1024 s (Zpos M) E loc_Exact = round64 s (Zpos M) E.
Proof.
  unfold binary_round_aux, round64, shr_fexp.
  rewrite !fexp_fexp64. cbn [shr_record_of_loc].
  set (d := Zdigits2 (Zpos M)).
  assert (Hd : d = Zpos (digits2_pos M)) by reflexivity.
  set (n := fexp64 (d + E) - E).
  assert (Hn : -1074 <= E + n /\ d - 53 <= n) by (unfold n, fexp64; lia).
  destruct n as [|p|p] eqn:Hp.
  - cbn [shr shr_m loc_of_shr_record round_nearest_even Z.leb Z.compare].
    fold d. rewrite fexp_fexp64. fold n. rewrite Hp. reflexivity.
  - rewrite shr_pos by lia. change (Zpos p <=? 0) with false. cbv iota.
    fold (rne (Zpos M) (Zpos p)).
    destruct (rne_bound (Zpos M) (Zpos p)) as [[Hlo Hhi] _]; [lia|lia|].
    pose proof (div_pow2_lt_53 M (Zpos p) ltac:(lia) ltac:(lia)) as Hlt.
    assert (H0 : 0 <= Zpos M / 2 ^ Zpos p) by (apply Z.div_pos; lia).
    set (m2 := rne (Zpos M) (Zpos p)) in *.
    rewrite fexp_fexp64.
    destruct (Z.eqb_spec m2 (2 ^ 53)) as [He|Hne].
    + rewrite He. change (Zdigits2 (2 ^ 53)) with 54.
      replace (fexp64 (54 + (E + Zpos p)) - (E + Zpos p)) with 1
        by (unfold fexp64; lia).
      reflexivity.
    + assert (Hd2 : Zdigits2 m2 <= 53) by (apply Zdigits2_le_53; lia).
      assert (Hd0 : 0 <= Zdigits2 m2) by (destruct m2; simpl; lia).
      assert (Hn2 : fexp64 (Zdigits2 m2 + (E + Zpos p)) - (E + Zpos p) <= 0)
        by (unfold fexp64; lia).
      destruct (fexp64 (Zdigits2 m2 + (E + Zpos p)) - (E + Zpos p))
        as [|q|q]; try lia; reflexivity.
  - cbn [shr shr_m loc_of_shr_record round_nearest_even].
    fold d. rewrite fexp_fexp64. fold n. rewrite Hp. reflexivity.
Qed.

(** ** Exact values, in units of 2^-1074 *)

Lemma SF2ulps_SF_of (m e : Z) :
  0 <= m -> e <= 971 -> SF2ulps (SF_of false m e) = Some (m * 2 ^ (e + 1074)).
Proof.
  intros Hm He. destruct m as [|p|p]; try lia; [reflexivity|].
  unfold SF_of. apply Z.leb_le in He. rewrite He. reflexivity.
Qed.

(** The value of [round64] when nothing is shifted out. *)
Lemma round64_ulps_exact (M : positive) (E : Z) :
  fexp64 (Zpos (digits2_pos M) + E) - E <= 0 -> E <= 971 ->
  SF2ulps (round64 false (Zpos M) E) = Some (Zpos M * 2 ^ (E + 1074)).
Proof.
  intros Hn HE. unfold round64. cbn [Zdigits2].
  apply Z.leb_le in Hn. rewrite Hn. apply SF2ulps_SF_of; lia.
Qed.

(** The value of [round64] when [n] bits are shifted out and the result
    is finite. *)
Lemma round64_ulps_shift (M : positive) (E : Z) :
  let n := fexp64 (Zpos (digits2_pos M) + E) - E in
  0 < n -> E + n <= 971 ->
  (rne (Zpos M) n = 2 ^ 53 -> E + n + 1 <= 971) ->
  SF2ulps (round64 false (Zpos M) E) =
  Some (rne (Zpos M) n * 2 ^ (E + n + 1074)).
Proof.
  intros n Hn HE Hc. unfold round64. cbn [Zdigits2]. fold n.
  assert (Hle : (n <=? 0) = false) by (apply Z.leb_gt; lia). rewrite Hle.
  assert (Hn' : -1074 <= E + n) by (unfold n, fexp64; lia).
  destruct (rne_bound (Zpos M) n) as [[Hlo _] _]; [lia|lia|].
  assert (H0 : 0 <= Zpos M / 2 ^ n) by (apply Z.div_pos; lia).
  destruct (Z.eqb_spec (rne (Zpos M) n) (2 ^ 53)) as [He|Hne].
  - rewrite SF2ulps_SF_of by (auto; lia). rewrite He. f_equal.
    replace (E + n + 1 + 1074) with (Z.succ (E + n + 1074)) by lia.
    rewrite Z.pow_succ_r by lia. lia.
  - apply SF2ulps_SF_of; lia.
Qed.

(** What [valid_binary] says of a finite binary64 number. *)
Lemma valid_finite (s : bool) (m : positive) (e : Z) :
  valid_binary (S754_finite s m e) = true ->
  -1074 <= e <= 971 /\ Zpos m < 2 ^ 53 /\ (-1074 < e -> 2 ^ 52 <= Zpos m).
Proof.
  unfold valid_binary, SpecFloat.valid_binary, bounded, canonical_mantissa.
  change prec with 53. change emax with 1024.
  rewrite fexp_fexp64. intros [Hc He]%andb_prop.
  apply Z.eqb_eq in Hc. apply Z.leb_le in He.
  change (1024 - 53) with 971 in He.
  pose proof (digits2_pos_bounds m) as [Hl Hu].
  unfold fexp64 in Hc.
  split; [lia|]. split.
  - eapply Z.lt_le_trans; [exact Hu|]. apply Z.pow_le_mono_r; lia.
  - intros Hn. eapply Z.le_trans; [|exact Hl]. apply Z.pow_le_mono_r; lia.
Qed.

Lemma digits_of_bounds (M : positive) (a b : Z) :
  0 <= a -> 2 ^ a <= Zpos M < 2 ^ b ->
  a < Zpos (digits2_pos M) <= b.
Proof.
  intros Ha [Hl Hu]. pose proof (digits2_pos_bounds M) as [Hl' Hu'].
  split.
  - apply (Z.pow_lt_mono_r_iff 2); lia.
  - assert (Zpos (digits2_pos M) - 1 < b); [|lia].
    apply (Z.pow_lt_mono_r_iff 2); try lia.
    destruct (Z_lt_le_dec b 0); [|lia].
    rewrite Z.pow_neg_r in Hu by lia. lia.
Qed.

Lemma pow2_pos (k : Z) : 0 <= k -> 0 < 2 ^ k.
Proof. intros. apply Z.pow_pos_nonneg; lia. Qed.

(** The product of a normal non-negative [x] with a ratio [r] in (0,1):
    it is finite, and its distance to the exact product is at most 2^-53
    of it when the product is normal and at most half a unit otherwise. *)
Lemma mul_ratio_ulps (x r : float) (mx mr : positive) (ex er : Z) :
  Prim2SF x = S754_finite false mx ex ->
  Prim2SF r = S754_finite false mr er ->
  2 ^ 52 <= Zpos mx ->
  -56 <= er <= -53 ->
  let ux := Zpos mx * 2 ^ (ex + 1074) in
  let R := Zpos mr * 2 ^ (er + 56) in
  exists up,
    ulps (x * r) = Some up /\ 0 <= up /\
    (2 ^ 53 * Z.abs (2 ^ 56 * up - ux * R) <= ux * R \/
     2 * Z.abs (2 ^ 56 * up - ux * R) <= 2 ^ 56).
Proof.
  intros Hx Hr Hmx Her ux R.
  pose proof (Prim2SF_valid x) as Vx. rewrite Hx in Vx.
  pose proof (Prim2SF_valid r) as Vr. rewrite Hr in Vr.
  apply valid_finite in Vx as (Hex & Hmx' & _).
  apply valid_finite in Vr as (_ & Hmr' & Hmr). specialize (Hmr ltac:(lia)).
  unfold ulps. rewrite mul_spec, Hx, Hr.
  cbn [SF64mul SFmul xorb]. rewrite binary_round_aux_round64.
  set (M := (mx * mr)%positive).
  assert (HM : Zpos M = Zpos mx * Zpos mr) by apply Pos2Z.inj_mul.
  set (E := ex + er).
  assert (HMb : 2 ^ 104 <= Zpos M < 2 ^ 106).
  { rewrite HM. change (2 ^ 104) with (2 ^ 52 * 2 ^ 52).
    change (2 ^ 106) with (2 ^ 53 * 2 ^ 53). split.
    - apply Z.mul_le_mono_nonneg; lia.
    - apply Z.mul_lt_mono_nonneg; lia. }
  pose proof (digits_of_bounds M 104 106 ltac:(lia) HMb) as Hd.
  pose proof (digits2_pos_bounds M) as [HdM _].
  set (d := Zpos (digits2_pos M)) in *.
  set (n := fexp64 (d + E) - E).
  assert (Hn : 0 < n /\ -1074 <= E + n <= 971) by (unfold n, fexp64, E; lia).
  destruct (rne_bound (Zpos M) n) as [[Hlo Hhi] Herr]; [lia|lia|].
  assert (H0 : 0 <= Zpos M / 2 ^ n)
    by (apply Z.div_pos; [lia|apply pow2_pos; lia]).
  assert (Hcarry : rne (Zpos M) n = 2 ^ 53 -> E + n + 1 <= 971).
  { intros Hc.
    destruct (Z_le_gt_dec (E + n + 1) 971) as [|Hgt]; [assumption|exfalso].
    assert (Hn53 : n = 53) by (unfold n, fexp64, E in *; lia).
    assert (Zpos M / 2 ^ n < 2 ^ 53 - 1); [|lia].
    rewrite Hn53. apply Z.div_lt_upper_bound; [lia|].
    rewrite HM.
    assert (Zpos mx * Zpos mr <= (2 ^ 53 - 1) * (2 ^ 53 - 1))
      by (apply Z.mul_le_mono_nonneg; lia).
    lia. }
  rewrite (round64_ulps_shift M E); fold d; fold n; try lia; try assumption.
  set (m2 := rne (Zpos M) n) in *.
  exists (m2 * 2 ^ (E + n + 1074)). split; [reflexivity|].
  assert (HW : 0 < 2 ^ (E + n + 1074)) by (apply pow2_pos; lia).
  split; [nia|].
  set (U := 2 ^ (ex + 1074)). set (c := 2 ^ (er + 56)).
  assert (HU : 0 < U) by (apply pow2_pos; lia).
  assert (Hc : 0 < c) by (apply pow2_pos; lia).
  assert (HN : 0 < 2 ^ n) by (apply pow2_pos; lia).
  assert (Hsplit : 2 ^ 56 * 2 ^ (E + n + 1074) = 2 ^ n * (U * c)).
  { unfold U, c. rewrite <- !Z.pow_add_r by lia. f_equal. unfold E. lia. }
  assert (Hdiff : 2 ^ 56 * (m2 * 2 ^ (E + n + 1074)) - ux * R =
                  (m2 * 2 ^ n - Zpos M) * (U * c)).
  { unfold ux, R. fold U c. rewrite HM.
    replace (2 ^ 56 * (m2 * 2 ^ (E + n + 1074)))
      with (m2 * (2 ^ 56 * 2 ^ (E + n + 1074))) by ring.
    rewrite Hsplit. ring. }
  assert (HuxR : ux * R = Zpos M * (U * c)).
  { unfold ux, R. fold U c. rewrite HM. ring. }
  rewrite Hdiff, HuxR, Z.abs_mul, (Z.abs_eq (U * c)) by nia.
  set (K := U * c) in *. assert (HK : 0 < K) by nia.
  set (a := Z.abs (m2 * 2 ^ n - Zpos M)) in *.
  destruct (Z_le_gt_dec (-1074) (d + E - 53)) as [Hnorm|Hsub].
  - left. assert (Hnd : n = d - 53) by (unfold n, fexp64; lia).
    assert (Hpw : 2 ^ 52 * 2 ^ n <= Zpos M).
    { rewrite <- Z.pow_add_r by lia. replace (52 + n) with (d - 1) by lia.
      exact HdM. }
    assert (2 ^ 53 * a <= Zpos M) by lia.
    replace (2 ^ 53 * (a * K)) with ((2 ^ 53 * a) * K) by ring.
    apply Z.mul_le_mono_nonneg_r; lia.
  - right. assert (Hnd : n = -1074 - E) by (unfold n, fexp64; lia).
    assert (HNK : 2 ^ n * K = 2 ^ 56).
    { unfold K, U, c. rewrite <- !Z.pow_add_r by lia. f_equal.
      unfold E in *. lia. }
    rewrite <- HNK. replace (2 * (a * K)) with ((2 * a) * K) by ring.
    apply Z.mul_le_mono_nonneg_r; lia.
Qed.

Lemma Pos_iter_xO (m d : positive) :
  Zpos (Pos.iter xO m d) = Zpos m * 2 ^ Zpos d.
Proof.
  induction d as [|d IH] using Pos.peano_ind.
  - simpl. lia.
  - rewrite Pos.iter_succ, Pos2Z.inj_xO, IH, Pos2Z.inj_succ.
    rewrite Z.pow_succ_r by lia. ring.
Qed.

(** [shl_align] lowers the exponent to [e'] and keeps the value. *)
Lemma shl_align_spec (m : positive) (e e' : Z) :
  snd (shl_align m e e') = Z.min e e' /\
  Zpos (fst (shl_align m e e')) = Zpos m * 2 ^ (e - Z.min e e').
Proof.
  unfold shl_align. destruct (e' - e) as [|d|d] eqn:Hd; cbn [fst snd].
  - replace (Z.min e e') with e by lia. rewrite Z.sub_diag. simpl. lia.
  - replace (Z.min e e') with e by lia. rewrite Z.sub_diag. simpl. lia.
  - replace (Z.min e e') with e' by lia. split; [reflexivity|].
    rewrite Pos_iter_xO. f_equal. f_equal. lia.
Qed.

(** The sum of two positive finite numbers below the overflow threshold
    is finite and within 2^-53 of the exact sum. *)
Lemma SFadd_pos_ulps (ma mb : positive) (ea eb : Z) :
  valid_binary (S754_finite false ma ea) = true ->
  valid_binary (S754_finite false mb eb) = true ->
  let S := Zpos ma * 2 ^ (ea + 1074) + Zpos mb * 2 ^ (eb + 1074) in
  S < overflow_threshold ->
  exists us,
    SF2ulps (SF64add (S754_finite false ma ea) (S754_finite false mb eb))
      = Some us /\
    2 ^ 53 * Z.abs (us - S) <= S.
Proof.
  intros Va Vb S HS.
  apply valid_finite in Va as (Hea & _ & _).
  apply valid_finite in Vb as (Heb & _ & _).
  unfold SF64add, SFadd. cbn [cond_Zopp].
  change prec with 53. change emax with 1024.
  set (ez := Z.min ea eb).
  destruct (shl_align_spec ma ea ez) as [_ Ha].
  destruct (shl_align_spec mb eb ez) as [_ Hb].
  replace (Z.min ea ez) with ez in Ha by lia.
  replace (Z.min eb ez) with ez in Hb by lia.
  set (ma' := fst (shl_align ma ea ez)) in *.
  set (mb' := fst (shl_align mb eb ez)) in *.
  change (Zpos ma' + Zpos mb') with (Zpos (ma' + mb')).
  cbn [binary_normalize]. unfold binary_round.
  rewrite fexp_fexp64.
  set (e0 := fexp64 (Zpos (digits2_pos (ma' + mb')) + ez)).
  destruct (shl_align_spec (ma' + mb') ez e0) as [He' Hz].
  destruct (shl_align (ma' + mb') ez e0) as [mz E]. cbn [fst snd] in He', Hz.
  rewrite binary_round_aux_round64.
  assert (HE : -1074 <= E <= 971) by (unfold e0, fexp64 in He'; lia).
  set (P := 2 ^ (E + 1074)).
  assert (HP : 0 < P) by (apply pow2_pos; lia).
  assert (HSz : S = Zpos mz * P).
  { assert (Hez : ez <= ea /\ ez <= eb /\ E <= ez) by (unfold ez in *; lia).
    assert (Hpa : 2 ^ (ea + 1074) = 2 ^ (ea - ez) * 2 ^ (ez - E) * P).
    { unfold P. rewrite <- !Z.pow_add_r by lia. f_equal. lia. }
    assert (Hpb : 2 ^ (eb + 1074) = 2 ^ (eb - ez) * 2 ^ (ez - E) * P).
    { unfold P. rewrite <- !Z.pow_add_r by lia. f_equal. lia. }
    unfold S. rewrite <- He' in Hz. rewrite Hz, Pos2Z.inj_add, Ha, Hb, Hpa, Hpb.
    ring. }
  pose proof (digits2_pos_bounds mz) as [HdM _].
  set (d := Zpos (digits2_pos mz)) in *.
  set (n := fexp64 (d + E) - E).
  destruct (Z_le_gt_dec n 0) as [Hn|Hn].
  - exists S. rewrite round64_ulps_exact by (fold d; fold n; lia).
    split; [f_equal; exact (eq_sym HSz)|].
    rewrite Z.sub_diag. simpl Z.abs. nia.
  - assert (Hnd : n = d - 53) by (unfold n, fexp64 in *; lia).
    assert (Hpw : 2 ^ 52 * 2 ^ n <= Zpos mz).
    { rewrite <- Z.pow_add_r by lia. replace (52 + n) with (d - 1) by lia.
      exact HdM. }
    assert (HN : 0 < 2 ^ n) by (apply pow2_pos; lia).
    destruct (rne_bound (Zpos mz) n) as [[Hlo Hhi] Herr]; [lia|lia|].
    set (m2 := rne (Zpos mz) n) in *.
    set (W := 2 ^ (E + n + 1074)).
    assert (HW : W = 2 ^ n * P).
    { unfold W, P. rewrite <- Z.pow_add_r by lia. f_equal. lia. }
    assert (Hdiff : m2 * W - S = (m2 * 2 ^ n - Zpos mz) * P).
    { rewrite HW, HSz. ring. }
    assert (Habs : Z.abs (m2 * W - S) = Z.abs (m2 * 2 ^ n - Zpos mz) * P).
    { rewrite Hdiff, Z.abs_mul, (Z.abs_eq P) by lia. reflexivity. }
    assert (Hhalf : 2 * Z.abs (m2 * W - S) <= W).
    { rewrite Habs, HW.
      replace (2 * (Z.abs (m2 * 2 ^ n - Zpos mz) * P))
        with ((2 * Z.abs (m2 * 2 ^ n - Zpos mz)) * P) by ring.
      apply Z.mul_le_mono_nonneg_r; lia. }
    assert (HSW : 2 ^ 52 * W <= S).
    { rewrite HW, HSz. replace (2 ^ 52 * (2 ^ n * P))
        with ((2 ^ 52 * 2 ^ n) * P) by ring.
      apply Z.mul_le_mono_nonneg_r; lia. }
    assert (Hfin : E + n <= 971).
    { destruct (Z_le_gt_dec (E + n) 971) as [|Hgt]; [assumption|exfalso].
      assert (2 ^ 2046 <= W) by (apply Z.pow_le_mono_r; lia).
      unfold overflow_threshold in HS. lia. }
    assert (Hcarry : m2 = 2 ^ 53 -> E + n + 1 <= 971).
    { intros Hc.
      destruct (Z_le_gt_dec (E + n + 1) 971) as [|Hgt]; [assumption|exfalso].
      assert (2 ^ 2045 <= W) by (apply Z.pow_le_mono_r; lia).
      rewrite Hc in Hhalf. unfold overflow_threshold in HS. lia. }
    exists (m2 * W).
    rewrite (round64_ulps_shift mz E)
      by (fold d; fold n; first [assumption | lia]).
    split; [reflexivity|]. lia.
Qed.

Lemma ulps_nonneg_finite
      (a : float) (s : bool) (m : positive) (e : Z) (u : Z) :
  Prim2SF a = S754_finite s m e -> ulps a = Some u -> 0 <= u ->
  s = false /\ u = Zpos m * 2 ^ (e + 1074) /\
  valid_binary (S754_finite false m e) = true.
Proof.
  intros Ha Hu H0. pose proof (Prim2SF_valid a) as V. rewrite Ha in V.
  assert (Hu' : u = cond_Zopp s (Zpos m * 2 ^ (e + 1074))).
  { unfold ulps in Hu. rewrite Ha in Hu. cbn [SF2ulps] in Hu. congruence. }
  clear Hu. subst u.
  pose proof (valid_finite _ _ _ V) as (He & _ & _).
  assert (0 < Zpos m * 2 ^ (e + 1074))
    by (apply Z.mul_pos_pos; [lia|apply pow2_pos; lia]).
  destruct s; cbn [cond_Zopp] in *; [lia|]. auto.
Qed.

(** Addition of two non-negative finite floats whose sum does not reach
    the overflow threshold: finite, and within 2^-53 of the exact sum. *)
Lemma add_ulps (a b : float) (ua ub : Z) :
  ulps a = Some ua -> ulps b = Some ub -> 0 <= ua -> 0 <= ub ->
  ua + ub < overflow_threshold ->
  exists us,
    ulps (a + b) = Some us /\ 2 ^ 53 * Z.abs (us - (ua + ub)) <= ua + ub.
Proof.
  intros Ha Hb Ha0 Hb0 Hlt.
  assert (Hexact : forall u, 0 <= u -> 2 ^ 53 * Z.abs (u - u) <= u).
  { intros u Hu. rewrite Z.sub_diag. simpl Z.abs. lia. }
  unfold ulps at 1. rewrite add_spec.
  destruct (Prim2SF a) as [sa|sa| |sa ma ea] eqn:Ea;
    try (unfold ulps in Ha; rewrite Ea in Ha; discriminate Ha);
  destruct (Prim2SF b) as [sb|sb| |sb mb eb] eqn:Eb;
    try (unfold ulps in Hb; rewrite Eb in Hb; discriminate Hb).
  - assert (ua = 0) by (unfold ulps in Ha; rewrite Ea in Ha; now injection Ha).
    assert (ub = 0) by (unfold ulps in Hb; rewrite Eb in Hb; now injection Hb).
    subst. exists 0. split; [destruct sa, sb; reflexivity|]. simpl. lia.
  - assert (ua = 0) by (unfold ulps in Ha; rewrite Ea in Ha; now injection Ha).
    subst. exists ub. split.
    + unfold ulps in Hb. rewrite Eb in Hb. exact Hb.
    + rewrite Z.add_0_l. auto.
  - assert (ub = 0) by (unfold ulps in Hb; rewrite Eb in Hb; now injection Hb).
    subst. exists ua. split.
    + unfold ulps in Ha. rewrite Ea in Ha. exact Ha.
    + rewrite Z.add_0_r. auto.
  - destruct (ulps_nonneg_finite a sa ma ea ua Ea Ha Ha0) as (-> & -> & Va).
    destruct (ulps_nonneg_finite b sb mb eb ub Eb Hb Hb0) as (-> & -> & Vb).
    exact (SFadd_pos_ulps ma mb ea eb Va Vb Hlt).
Qed.

(** A zero times a ratio is a zero. *)
Lemma mul_zero_ulps (x r : float) (s : bool) (mr : positive) (er : Z) :
  Prim2SF x = S754_zero s ->
  Prim2SF r = S754_finite false mr er ->
  ulps (x * r) = Some 0.
Proof.
  intros Hx Hr. unfold ulps. rewrite mul_spec, Hx, Hr. reflexivity.
Qed.

Lemma eqb_zero (x : float) :
  (x =? 0)%float = true -> exists s, Prim2SF x = S754_zero s.
Proof.
  rewrite FloatAxioms.eqb_spec. change (Prim2SF 0) with (S754_zero false).
  destruct (Prim2SF x) as [s|s| |s m e]; try destruct s;
    cbv [SFeqb SFcompare]; try discriminate; eauto.
Qed.

(** A float between the smallest normal number and the largest finite one. *)
Lemma normal_ulps (x : float) :
  (0x1p-1022 <=? x)%float = true -> (x <? infinity)%float = true ->
  exists mx ex,
    Prim2SF x = S754_finite false mx ex /\ 2 ^ 52 <= Zpos mx /\
    2 ^ 52 <= Zpos mx * 2 ^ (ex + 1074) <= max_ulps.
Proof.
  rewrite leb_spec, ltb_spec.
  change (Prim2SF 0x1p-1022) with (S754_finite false 4503599627370496 (-1074)).
  change (Prim2SF infinity) with (S754_infinity false).
  pose proof (Prim2SF_valid x) as V.
  destruct (Prim2SF x) as [s|s| |s m e]; try destruct s;
    cbv [SFleb SFltb SFcompare]; try discriminate.
  apply valid_finite in V as (He & Hm & Hn).
  intros Hle _. exists m, e. split; [reflexivity|].
  assert (Hm52 : 2 ^ 52 <= Zpos m).
  { destruct (Z.compare_spec (-1074) e) as [Heq|Hlt|Hgt]; [|lia|discriminate].
    subst e. rewrite Pos.compare_cont_spec in Hle. simpl in Hle.
    destruct (Pos.compare_spec 4503599627370496 m) as [Hc|Hc|Hc];
      try discriminate; lia. }
  split; [exact Hm52|].
  assert (H1 : 1 <= 2 ^ (e + 1074)) by (pose proof (pow2_pos (e + 1074)); lia).
  assert (H2 : 2 ^ (e + 1074) <= 2 ^ 2045) by (apply Z.pow_le_mono_r; lia).
  unfold max_ulps. split; [nia|].
  apply Z.le_trans with ((2 ^ 53 - 1) * 2 ^ 2045); [|lia].
  apply Z.mul_le_mono_nonneg; lia.
Qed.

Lemma ratio_scaled_bounds (mr : positive) (er : Z) (r : float) :
  Prim2SF r = S754_finite false mr er -> -56 <= er <= -53 ->
  2 ^ 52 <= Zpos mr * 2 ^ (er + 56) < 2 ^ 56.
Proof.
  intros Hr Her. pose proof (Prim2SF_valid r) as V. rewrite Hr in V.
  apply valid_finite in V as (_ & Hm & Hn). specialize (Hn ltac:(lia)).
  assert (Hc : 1 <= 2 ^ (er + 56) <= 8).
  { split; [pose proof (pow2_pos (er + 56)); lia|].
    change 8 with (2 ^ 3). apply Z.pow_le_mono_r; lia. }
  split; [nia|].
  assert (er = -56 \/ er = -55 \/ er = -54 \/ er = -53) as [->|[->|[->| ->]]]
    by lia; simpl Z.pow; lia.
Qed.

Lemma product_bound_linear (u A : Z) :
  0 <= A ->
  2 ^ 53 * Z.abs (2 ^ 56 * u - A) <= A \/
  2 * Z.abs (2 ^ 56 * u - A) <= 2 ^ 56 ->
  - (A + 2 ^ 108) <= 2 ^ 53 * (2 ^ 56 * u - A) <= A + 2 ^ 108.
Proof. intros HA [H|H]; lia. Qed.

Lemma abs_scaled (c a b : Z) :
  0 < c -> c * Z.abs a <= b <-> - b <= c * a <= b.
Proof. intros Hc. split; intros H; lia. Qed.

(** The three products of a normal income [x] with ratios in [1/16, 1)
    whose exact sum is within 2^-54 of 1, and their sums. *)
Section Triple.
Variables (x rs re ri : float).
Variables (mx ms me mi : positive) (ex es ee ei : Z).
Hypothesis Hx : Prim2SF x = S754_finite false mx ex.
Hypothesis Hmx : 2 ^ 52 <= Zpos mx.
Hypothesis Hrs : Prim2SF rs = S754_finite false ms es.
Hypothesis Hre : Prim2SF re = S754_finite false me ee.
Hypothesis Hri : Prim2SF ri = S754_finite false mi ei.
Hypothesis Hes : -56 <= es <= -53.
Hypothesis Hee : -56 <= ee <= -53.
Hypothesis Hei : -56 <= ei <= -53.

Let ux := Zpos mx * 2 ^ (ex + 1074).
Let Rs := Zpos ms * 2 ^ (es + 56).
Let Re := Zpos me * 2 ^ (ee + 56).
Let Ri := Zpos mi * 2 ^ (ei + 56).

Hypothesis Hsum : Z.abs (Rs + Re + Ri - 2 ^ 56) <= 4.
Hypothesis Hux : 2 ^ 52 <= ux.

Lemma triple_products :
  exists us ue ui,
    ulps (x * rs) = Some us /\ ulps (x * re) = Some ue /\
    ulps (x * ri) = Some ui /\
    0 <= us /\ 0 <= ue /\ 0 <= ui /\
    2 ^ 56 * (us + ue) <= 2 ^ 56 * ux - 2 ^ 51 * ux /\
    2 ^ 53 * Z.abs (us + ue + ui - ux) <= 2 * ux + 2 ^ 54.
Proof.
  destruct (mul_ratio_ulps x rs mx ms ex es Hx Hrs Hmx Hes)
    as (us & Hus & Hus0 & Bs).
  destruct (mul_ratio_ulps x re mx me ex ee Hx Hre Hmx Hee)
    as (ue & Hue & Hue0 & Be).
  destruct (mul_ratio_ulps x ri mx mi ex ei Hx Hri Hmx Hei)
    as (ui & Hui & Hui0 & Bi).
  fold ux Rs in Bs. fold ux Re in Be. fold ux Ri in Bi.
  exists us, ue, ui. do 6 (split; [assumption|]).
  pose proof (ratio_scaled_bounds ms es rs Hrs Hes) as HRs.
  pose proof (ratio_scaled_bounds me ee re Hre Hee) as HRe.
  pose proof (ratio_scaled_bounds mi ei ri Hri Hei) as HRi.
  fold Rs in HRs. fold Re in HRe. fold Ri in HRi.
  assert (Hux0 : 0 <= ux) by lia.
  assert (HT : ux * Rs + ux * Re + ux * Ri =
               2 ^ 56 * ux + ux * (Rs + Re + Ri - 2 ^ 56)) by ring.
  assert (HD : -(4 * ux) <= ux * (Rs + Re + Ri - 2 ^ 56) <= 4 * ux).
  { apply Z.abs_le in Hsum. destruct Hsum as [Hl Hu]. split.
    - replace (- (4 * ux)) with (ux * (-4)) by ring.
      apply Z.mul_le_mono_nonneg_l; assumption.
    - rewrite (Z.mul_comm 4 ux).
      apply Z.mul_le_mono_nonneg_l; assumption. }
  assert (HAs : 0 <= ux * Rs) by (apply Z.mul_nonneg_nonneg; lia).
  assert (HAe : 0 <= ux * Re) by (apply Z.mul_nonneg_nonneg; lia).
  assert (HAi : 2 ^ 52 * ux <= ux * Ri).
  { rewrite (Z.mul_comm (2 ^ 52) ux).
    apply Z.mul_le_mono_nonneg_l; lia. }
  apply product_bound_linear in Bs; [|assumption].
  apply product_bound_linear in Be; [|assumption].
  apply product_bound_linear in Bi; [|lia].
  set (As := ux * Rs) in *. set (Ae := ux * Re) in *.
  set (Ai := ux * Ri) in *. set (Dl := ux * (Rs + Re + Ri - 2 ^ 56)) in *.
  clearbody As Ae Ai Dl ux.
  clear - HT HD HAs HAe HAi Bs Be Bi Hus0 Hue0 Hui0 Hux.
  split; [lia|]. apply Z.abs_le. lia.
Qed.

(** Below the last few floats before overflow the float sum is finite
    too, and both sums are within 1e-9 of the income. *)
Lemma triple_sums :
  ux <= 2 ^ 2098 - 5 * 2 ^ 2045 ->
  exists us ue ui ut,
    ulps (x * rs) = Some us /\ ulps (x * re) = Some ue /\
    ulps (x * ri) = Some ui /\
    ulps (x * rs + x * re + x * ri) = Some ut /\
    within_1e9 (us + ue + ui) ux /\ within_1e9 ut ux.
Proof.
  intros Hmax.
  destruct triple_products
    as (us & ue & ui & Hus & Hue & Hui & Hs0 & He0 & Hi0 & Hse & Hsum3).
  apply abs_scaled in Hsum3; [|lia].
  assert (Hlt1 : us + ue < overflow_threshold)
    by (unfold overflow_threshold; lia).
  destruct (add_ulps _ _ us ue Hus Hue Hs0 He0 Hlt1) as (ut1 & Hut1 & B1).
  apply abs_scaled in B1; [|lia].
  assert (Hlt2 : ut1 + ui < overflow_threshold)
    by (unfold overflow_threshold; lia).
  destruct (add_ulps _ _ ut1 ui Hut1 Hui ltac:(lia) Hi0 Hlt2)
    as (ut & Hut & B2).
  apply abs_scaled in B2; [|lia].
  exists us, ue, ui, ut. do 4 (split; [assumption|]).
  unfold within_1e9. rewrite (Z.abs_eq ux) by lia.
  split.
  - apply abs_scaled; lia.
  - apply abs_scaled; lia.
Qed.
End Triple.

Lemma products_sum_within_intro (x rs re ri : float) (us ue ui ut ux : Z) :
  ulps x = Some ux ->
  ulps (x * rs) = Some us -> ulps (x * re) = Some ue ->
  ulps (x * ri) = Some ui ->
  ulps (x * rs + x * re + x * ri) = Some ut ->
  within_1e9 (us + ue + ui) ux -> within_1e9 ut ux ->
  products_sum_within x rs re ri.
Proof.
  intros Hx Hs He Hi Ht Hw1 Hw2. split.
  - exists us, ue, ui, ux. auto.
  - exists ut, ux. auto.
Qed.

(** A closed instance, by evaluation of the float operations. *)
Ltac by_evaluation :=
  eapply products_sum_within_intro;
  [vm_compute; reflexivity ..
  |apply Z.leb_le; vm_compute; reflexivity
  |apply Z.leb_le; vm_compute; reflexivity].

(** The four largest finite floats, one by one. *)
Lemma top_floats_sums (x rs re ri : float) (mx : positive) :
  table_triple rs re ri ->
  Prim2SF x = S754_finite false mx 971 ->
  2 ^ 53 - 5 < Zpos mx < 2 ^ 53 ->
  products_sum_within x rs re ri.
Proof.
  intros Ht Hx Hm.
  rewrite <- (SF2Prim_Prim2SF x), Hx.
  assert (Hc : mx = 9007199254740988%positive \/
               mx = 9007199254740989%positive \/
               mx = 9007199254740990%positive \/
               mx = 9007199254740991%positive) by lia.
  destruct Hc as [->|[->|[->| ->]]];
    destruct Ht as [[= -> -> ->]|[[= -> -> ->]|[[= -> -> ->]|[= -> -> ->]]]];
    by_evaluation.
Qed.

(** Every normal income, with each triple of the table. *)
Lemma normal_sums (x rs re ri : float) :
  table_triple rs re ri ->
  (0x1p-1022 <=? x)%float = true -> (x <? infinity)%float = true ->
  products_sum_within x rs re ri.
Proof.
  intros Ht Hlo Hhi.
  destruct (normal_ulps x Hlo Hhi) as (mx & ex & Hx & Hmx & Hux).
  pose proof (Prim2SF_valid x) as V. rewrite Hx in V.
  apply valid_finite in V as (Hex & Hm53 & _).
  destruct (Z_le_gt_dec (Zpos mx * 2 ^ (ex + 1074))
                        (2 ^ 2098 - 5 * 2 ^ 2045)) as [Hgen|Htop].
  - assert (Hgoal : exists us ue ui ut,
               ulps (x * rs) = Some us /\ ulps (x * re) = Some ue /\
               ulps (x * ri) = Some ui /\
               ulps (x * rs + x * re + x * ri) = Some ut /\
               within_1e9 (us + ue + ui) (Zpos mx * 2 ^ (ex + 1074)) /\
               within_1e9 ut (Zpos mx * 2 ^ (ex + 1074))).
    { destruct Ht as [[= -> -> ->]|[[= -> -> ->]|[[= -> -> ->]|[= -> -> ->]]]];
        eapply (triple_sums x _ _ _ mx _ _ _ ex);
        try exact Hx; try exact Hmx; try exact Hgen; try apply Hux;
        try (vm_compute; reflexivity);
        try (split; vm_compute; discriminate);
        try (apply Z.leb_le; vm_compute; reflexivity). }
    destruct Hgoal as (us & ue & ui & ut & H1 & H2 & H3 & H4 & H5 & H6).
    apply (products_sum_within_intro x rs re ri us ue ui ut
             (Zpos mx * 2 ^ (ex + 1074))); try assumption.
    unfold ulps. rewrite Hx. reflexivity.
  - assert (Hex971 : ex = 971).
    { destruct (Z.eq_dec ex 971) as [|Hne]; [assumption|exfalso].
      assert (2 ^ (ex + 1074) <= 2 ^ 2044) by (apply Z.pow_le_mono_r; lia).
      assert (Zpos mx * 2 ^ (ex + 1074) <= 2 ^ 53 * 2 ^ 2044)
        by (apply Z.mul_le_mono_nonneg; lia).
      lia. }
    subst ex. apply (top_floats_sums x rs re ri mx Ht Hx).
    change (2 ^ (971 + 1074)) with (2 ^ 2045) in Htop. lia.
Qed.

(** A zero income: all amounts and sums are zero. *)
Lemma zero_sums (x rs re ri : float) :
  table_triple rs re ri ->
  (x =? 0)%float = true ->
  products_sum_within x rs re ri.
Proof.
  intros Ht Hz. destruct (eqb_zero x Hz) as [s Hx].
  assert (Hp : forall r mr er, Prim2SF r = S754_finite false mr er ->
                 ulps (x * r) = Some 0)
    by (intros r mr er Hr; exact (mul_zero_ulps x r s mr er Hx Hr)).
  assert (Hs : ulps (x * rs) = Some 0 /\ ulps (x * re) = Some 0 /\
               ulps (x * ri) = Some 0).
  { destruct Ht as [[= -> -> ->]|[[= -> -> ->]|[[= -> -> ->]|[= -> -> ->]]]];
      repeat split; eapply Hp; vm_compute; reflexivity. }
  destruct Hs as (Hs & He & Hi).
  assert (H0 : 0 + 0 < overflow_threshold) by (vm_compute; reflexivity).
  assert (Hz0 : 0 <= 0) by lia.
  destruct (add_ulps _ _ 0 0 Hs He Hz0 Hz0 H0) as (ut1 & Hut1 & B1).
  assert (ut1 = 0) by lia. subst ut1.
  destruct (add_ulps _ _ 0 0 Hut1 Hi Hz0 Hz0 H0) as (ut & Hut & B2).
  assert (ut = 0) by lia. subst ut.
  assert (Hw : within_1e9 0 0) by (vm_compute; discriminate).
  apply (products_sum_within_intro x rs re ri 0 0 0 0 0);
    [unfold ulps; rewrite Hx; reflexivity|assumption ..].
Qed.

(** ** Basic facts about floats and the operations *)

Lemma ge0_not_lt0 (x : float) :
  (0 <=? x)%float = true -> (x <? 0)%float = false.
Proof.
  rewrite leb_spec, ltb_spec.
  change (Prim2SF 0) with (S754_zero false).
  destruct (Prim2SF x) as [s|s| |s m e]; try destruct s;
    cbv [SFleb SFltb SFcompare]; congruence.
Qed.

Lemma set_life_stage_true (stage : string) (σ σ' : Store) :
  set_life_stage stage σ = Returned true σ' ->
  is_Some (class_GEAR_RATIOS σ !! stage) /\
  class_GEAR_RATIOS σ' = class_GEAR_RATIOS σ /\
  current_stage (self σ') = Some stage.
Proof.
  unfold set_life_stage. case_decide as Hk; intros [= <-]; auto.
Qed.

Lemma calculate_allocation_returns (income : float) (σ : Store)
      (stage : string) (rs re ri : float) :
  current_stage (self σ) = Some stage ->
  class_GEAR_RATIOS σ !! stage = Some (rs, re, ri) ->
  (income <? 0)%float = false ->
  let result : gmap string float :=
    <["Savings" := (income * rs)%float]>
    (<["Expenses" := (income * re)%float]>
    (<["Investments" := (income * ri)%float]> ∅)) in
  calculate_allocation income σ =
  Returned result
    (set_self σ {| current_stage := Some stage; income := income;
                   allocations := result |}).
Proof.
  intros Hs Hr Hi. unfold calculate_allocation.
  rewrite Hs, Hi. simpl. rewrite Hr. reflexivity.
Qed.

Lemma step_class_GEAR_RATIOS money (σ : Store) (c : call) :
  class_GEAR_RATIOS (step money σ c) = class_GEAR_RATIOS σ.
Proof.
  destruct c as [stage|income| ]; simpl.
  - unfold set_life_stage. case_decide; reflexivity.
  - unfold calculate_allocation.
    destruct (current_stage (self σ)); [|reflexivity].
    destruct (income <? 0)%float; [reflexivity|]. simpl.
    destruct (class_GEAR_RATIOS σ !! s) as [[[? ?] ?]|]; reflexivity.
  - unfold display_allocation. case_decide; [reflexivity|].
    repeat (case_match; try reflexivity).
Qed.

(** The keys of [GEAR_RATIOS], one by one. *)
Lemma GEAR_RATIOS_lookup (stage : string) (r : ratio) :
  GEAR_RATIOS !! stage = Some r ->
  stage = "Student" /\ r = (0.10, 0.80, 0.10)%float \/
  stage = "First Job" /\ r = (0.30, 0.50, 0.20)%float \/
  stage = "Family" /\ r = (0.25, 0.55, 0.20)%float \/
  stage = "Retirement" /\ r = (0.50, 0.30, 0.20)%float.
Proof.
  unfold GEAR_RATIOS. rewrite !lookup_insert, lookup_empty.
  repeat case_decide; intros [=]; subst; auto.
Qed.

(** The scenarios of the specification, evaluated. *)
Lemma spec_scenarios :
  let alloc (stage : string) (income : float) :=
    match calculate_allocation income
            (store_of (set_life_stage stage new_gearbox)) with
    | Returned m _ => (m !! "Savings", m !! "Expenses", m !! "Investments")
    | Raised _ _ => (None, None, None)
    end in
  alloc "Student" 50000.00%float =
    (Some 5000.00, Some 40000.00, Some 5000.00)%float /\
  alloc "First Job" 100000.00%float =
    (Some 30000.00, Some 50000.00, Some 20000.00)%float /\
  alloc "Family" 0.00%float = (Some 0.00, Some 0.00, Some 0.00)%float /\
  alloc "Retirement" 20000.00%float =
    (Some 10000.00, Some 6000.00, Some 4000.00)%float.
Proof. repeat split; vm_compute; reflexivity. Qed.

(** ** The properties of the specification *)

(** C1. With a stage selected whose table entry is [(rs, re, ri)], and in
    particular right after a successful [set_life_stage stage],
    [calculate_allocation] of any income with [income >= 0] returns a
    dictionary whose keys are exactly Savings, Expenses and Investments and
    whose values are the income times [rs], [re] and [ri]; the returned
    dictionary is the one stored.  For stage "Student" and income 50000.00
    it is Savings=5000.00, Expenses=40000.00, Investments=5000.00. *)
Theorem calculate_allocation_correct :
  (forall (σ : Store) (stage : string) (rs re ri income : float),
      current_stage (self σ) = Some stage ->
      class_GEAR_RATIOS σ !! stage = Some (rs, re, ri) ->
      (0 <=? income)%float = true ->
      exists m σ',
        calculate_allocation income σ = Returned m σ' /\
        dom m = categories /\
        m !! "Savings" = Some (income * rs)%float /\
        m !! "Expenses" = Some (income * re)%float /\
        m !! "Investments" = Some (income * ri)%float /\
        allocations (self σ') = m) /\
  (forall (σ0 σ : Store) (stage : string) (income : float),
      set_life_stage stage σ0 = Returned true σ ->
      (0 <=? income)%float = true ->
      exists rs re ri m σ',
        class_GEAR_RATIOS σ0 !! stage = Some (rs, re, ri) /\
        calculate_allocation income σ = Returned m σ' /\
        dom m = categories /\
        m !! "Savings" = Some (income * rs)%float /\
        m !! "Expenses" = Some (income * re)%float /\
        m !! "Investments" = Some (income * ri)%float /\
        allocations (self σ') = m) /\
  (exists σ',
      calculate_allocation 50000.00
        (store_of (set_life_stage "Student" new_gearbox)) =
      Returned (<["Savings" := 5000.00%float]>
                (<["Expenses" := 40000.00%float]>
                (<["Investments" := 5000.00%float]> ∅))) σ').
Proof.
  assert (Hgen : forall (σ : Store) (stage : string) (rs re ri income : float),
      current_stage (self σ) = Some stage ->
      class_GEAR_RATIOS σ !! stage = Some (rs, re, ri) ->
      (0 <=? income)%float = true ->
      exists m σ',
        calculate_allocation income σ = Returned m σ' /\
        dom m = categories /\
        m !! "Savings" = Some (income * rs)%float /\
        m !! "Expenses" = Some (income * re)%float /\
        m !! "Investments" = Some (income * ri)%float /\
        allocations (self σ') = m).
  { intros σ stage rs re ri income Hcur Hk Hge. do 2 eexists.
    split.
    { apply calculate_allocation_returns with (stage := stage);
        [exact Hcur | exact Hk | apply ge0_not_lt0, Hge]. }
    split.
    { unfold categories. rewrite !dom_insert_L, dom_empty_L. set_solver. }
    split; [apply lookup_insert_eq|].
    split; [rewrite lookup_insert_ne by discriminate;
            apply lookup_insert_eq|].
    split; [rewrite !lookup_insert_ne by discriminate;
            apply lookup_insert_eq|].
    reflexivity. }
  split; [exact Hgen|]. split.
  - intros σ0 σ stage income Hsel Hge.
    apply set_life_stage_true in Hsel as ([[[rs re] ri] Hk] & Hcls & Hcur).
    exists rs, re, ri.
    destruct (Hgen σ stage rs re ri income Hcur) as (m & σ' & H);
      [rewrite Hcls; exact Hk | exact Hge |].
    exists m, σ'. split; [exact Hk | exact H].
  - eexists. vm_compute. reflexivity.
Qed.

Lemma calculate_allocation_correct_witness :
  set_life_stage "First Job" new_gearbox =
    Returned true (store_of (set_life_stage "First Job" new_gearbox)) /\
  (0 <=? 100000.00)%float = true /\
  exists rs re ri m σ',
    GEAR_RATIOS !! "First Job" = Some (rs, re, ri) /\
    calculate_allocation 100000.00
      (store_of (set_life_stage "First Job" new_gearbox)) = Returned m σ' /\
    dom m = categories /\
    m !! "Savings" = Some (100000.00 * rs)%float /\
    m !! "Expenses" = Some (100000.00 * re)%float /\
    m !! "Investments" = Some (100000.00 * ri)%float /\
    allocations (self σ') = m.
Proof.
  split; [reflexivity|]. split; [reflexivity|].
  apply (proj1 (proj2 calculate_allocation_correct) new_gearbox); reflexivity.
Defined.

(** An income of the sum property is not negative for Python. *)
Lemma zero_or_normal_not_lt0 (income : float) :
  zero_or_normal income -> (income <? 0)%float = false.
Proof.
  intros [Hz|[Hlo Hhi]]; rewrite ltb_spec;
    change (Prim2SF 0) with (S754_zero false).
  - destruct (eqb_zero income Hz) as [s ->]. reflexivity.
  - destruct (normal_ulps income Hlo Hhi) as (mx & ex & -> & _). reflexivity.
Qed.

Lemma GEAR_RATIOS_table_triple (stage : string) (rs re ri : float) :
  GEAR_RATIOS !! stage = Some (rs, re, ri) -> table_triple rs re ri.
Proof.
  intros H. unfold table_triple.
  destruct (GEAR_RATIOS_lookup _ _ H) as [[_ ->]|[[_ ->]|[[_ ->]|[_ ->]]]];
    auto.
Qed.

(** C2, as stated: the sum would be within 1e-9 of every income [>= 0].
    With the stage "Student" and the income 3 * 2^-1074 (Python prints
    1.5e-323) the amounts are 0.0, 2 * 2^-1074 and 0.0: their sum, exact or
    in floats, is two thirds of the income. *)
Lemma subnormal_income_sum_off :
  let σ := store_of (set_life_stage "Student" new_gearbox) in
  let income := 0x3p-1074%float in
  let expenses := 0x2p-1074%float in
  (0 <=? income)%float = true /\
  (exists σ',
      calculate_allocation income σ =
        Returned (<["Savings" := 0%float]>
                  (<["Expenses" := expenses]>
                  (<["Investments" := 0%float]> ∅))) σ') /\
  ~ exact_sum_within 0 expenses 0 income /\
  ~ float_sum_within 0 expenses 0 income.
Proof.
  intros σ income expenses. split; [reflexivity|]. split.
  - eexists. vm_compute. reflexivity.
  - split.
    + intros (us & ue & ui & ux & Hs & He & Hi & Hx & Hw).
      vm_compute in Hs, He, Hi, Hx.
      injection Hs as <-. injection He as <-. injection Hi as <-.
      injection Hx as <-. vm_compute in Hw. apply Hw. reflexivity.
    + intros (ut & ux & Ht & Hx & Hw).
      vm_compute in Ht, Hx. injection Ht as <-. injection Hx as <-.
      vm_compute in Hw. apply Hw. reflexivity.
Qed.

(** C2, amended.  For every stage of the table and every income that is
    zero or a finite number from 2^-1022 (the smallest normal binary64
    number) on, [calculate_allocation] returns amounts whose sum is within
    1e-9 of the income, relatively: the exact sum of the three amounts, and
    the float [Savings + Expenses + Investments], which is finite. *)
Theorem allocation_sums_to_income
        (σ : Store) (stage : string) (income : float) :
  class_GEAR_RATIOS σ = GEAR_RATIOS ->
  current_stage (self σ) = Some stage ->
  stage ∈ dom GEAR_RATIOS ->
  zero_or_normal income ->
  exists m σ' s e i,
    calculate_allocation income σ = Returned m σ' /\
    m !! "Savings" = Some s /\ m !! "Expenses" = Some e /\
    m !! "Investments" = Some i /\
    exact_sum_within s e i income /\ float_sum_within s e i income.
Proof.
  intros Hcls Hcur Hdom Hinc.
  apply elem_of_dom in Hdom as [[[rs re] ri] Hr].
  pose proof (GEAR_RATIOS_table_triple _ _ _ _ Hr) as Ht.
  rewrite <- Hcls in Hr.
  pose proof (calculate_allocation_returns income σ stage rs re ri Hcur Hr
                (zero_or_normal_not_lt0 _ Hinc)) as Hcalc.
  cbv zeta in Hcalc.
  do 2 eexists. exists (income * rs)%float, (income * re)%float,
                       (income * ri)%float.
  split; [exact Hcalc|].
  split; [apply lookup_insert_eq|].
  split; [rewrite lookup_insert_ne by discriminate; apply lookup_insert_eq|].
  split; [rewrite !lookup_insert_ne by discriminate; apply lookup_insert_eq|].
  destruct Hinc as [Hz|[Hlo Hhi]].
  - exact (zero_sums income rs re ri Ht Hz).
  - exact (normal_sums income rs re ri Ht Hlo Hhi).
Qed.

Lemma allocation_sums_to_income_witness :
  let σ := store_of (set_life_stage "Retirement" new_gearbox) in
  zero_or_normal 20000.00 /\
  exists m σ' s e i,
    calculate_allocation 20000.00 σ = Returned m σ' /\
    m !! "Savings" = Some s /\ m !! "Expenses" = Some e /\
    m !! "Investments" = Some i /\
    exact_sum_within s e i 20000.00 /\ float_sum_within s e i 20000.00.
Proof.
  intros σ.
  assert (Hn : zero_or_normal 20000.00) by (right; split; reflexivity).
  split; [exact Hn|].
  apply (allocation_sums_to_income σ "Retirement" 20000.00);
    [reflexivity | reflexivity | | exact Hn].
  apply elem_of_dom. eexists. reflexivity.
Defined.

(** C3, as stated: [calculate_allocation] would report a failure in its
    result and never raise.  It raises [ValueError] on a fresh object, and
    on a negative income after a stage was selected. *)
Lemma calculate_allocation_raises :
  calculate_allocation 100 new_gearbox =
    Raised (ValueError msg_unset) new_gearbox /\
  calculate_allocation (-1)
    (store_of (set_life_stage "Student" new_gearbox)) =
    Raised (ValueError msg_negative)
      (store_of (set_life_stage "Student" new_gearbox)) /\
  ~ (forall income : float, never_raises (calculate_allocation income)).
Proof.
  split; [reflexivity|]. split; [reflexivity|].
  intros H. destruct (H 100%float new_gearbox) as (v & σ' & Hv).
  discriminate Hv.
Qed.

(** C3, amended. [set_life_stage] never raises and reports an unknown stage
    by returning [False].  [calculate_allocation] reports its two failure
    modes by raising [ValueError], each with a message of its own: an unset
    stage first, a negative income second; on a store whose stage is unset
    or a key of the table it raises nothing else, and returns otherwise. *)
Theorem failure_signalling :
  (forall stage : string, never_raises (set_life_stage stage)) /\
  (forall (stage : string) (σ : Store),
      class_GEAR_RATIOS σ !! stage = None ->
      set_life_stage stage σ = Returned false σ) /\
  (forall (income : float) (σ : Store),
      current_stage (self σ) = None ->
      calculate_allocation income σ = Raised (ValueError msg_unset) σ) /\
  (forall (income : float) (σ : Store),
      current_stage (self σ) <> None ->
      (income <? 0)%float = true ->
      calculate_allocation income σ = Raised (ValueError msg_negative) σ) /\
  (forall (income : float) (σ : Store),
      stage_ok σ ->
      current_stage (self σ) <> None ->
      (income <? 0)%float = false ->
      exists m σ', calculate_allocation income σ = Returned m σ') /\
  (forall (income : float) (σ σ' : Store) (e : exn),
      stage_ok σ ->
      calculate_allocation income σ = Raised e σ' ->
      e = ValueError msg_unset \/ e = ValueError msg_negative) /\
  msg_unset <> msg_negative.
Proof.
  split; [|split; [|split; [|split; [|split; [|split]]]]].
  - intros stage σ. unfold set_life_stage. case_decide; eauto.
  - intros stage σ Hk. unfold set_life_stage.
    case_decide as Hs; [|reflexivity].
    rewrite Hk in Hs. destruct Hs as [? [=]].
  - intros income σ Hs. unfold calculate_allocation. rewrite Hs. reflexivity.
  - intros income σ Hs Hi. unfold calculate_allocation.
    destruct (current_stage (self σ)); [|congruence]. rewrite Hi. reflexivity.
  - intros income σ Hok Hs Hi. unfold stage_ok in Hok.
    destruct (current_stage (self σ)) as [stage|] eqn:Hst; [|congruence].
    destruct Hok as [[[rs re] ri] Hk].
    rewrite (calculate_allocation_returns income σ stage rs re ri Hst Hk Hi).
    eauto.
  - intros income σ σ' e Hok. unfold stage_ok in Hok.
    unfold calculate_allocation.
    destruct (current_stage (self σ)) as [stage|]; [|intros [= <- _]; auto].
    destruct (income <? 0)%float; [intros [= <- _]; auto|].
    destruct Hok as [[[rs re] ri] Hk]. cbn [set_self class_GEAR_RATIOS].
    rewrite Hk. discriminate.
  - discriminate.
Qed.

Lemma failure_signalling_witness :
  set_life_stage "Unemployed" new_gearbox = Returned false new_gearbox /\
  calculate_allocation 50000 new_gearbox =
    Raised (ValueError msg_unset) new_gearbox.
Proof.
  split.
  - apply (proj1 (proj2 failure_signalling)). reflexivity.
  - apply (proj1 (proj2 (proj2 failure_signalling))). reflexivity.
Defined.

(** C4. [set_life_stage stage] never raises.  It returns [True] exactly
    when [stage] is a key of the ratio table, and then only the current
    stage changes, to [stage].  Otherwise it returns [False] and the store
    is the one before the call: a stage selected earlier stays selected and
    [calculate_allocation] gives what it would have given without the
    rejected call, which for an income [>= 0] is an allocation. *)
Theorem set_life_stage_spec (stage : string) (σ : Store) :
  (exists b : bool,
      set_life_stage stage σ =
        Returned b
          (if b then
             set_self σ {| current_stage := Some stage;
                           income := income (self σ);
                           allocations := allocations (self σ) |}
           else σ) /\
      (b = true <-> stage ∈ dom (class_GEAR_RATIOS σ))) /\
  (stage ∉ dom (class_GEAR_RATIOS σ) ->
   set_life_stage stage σ = Returned false σ /\
   forall income : float,
     calculate_allocation income (store_of (set_life_stage stage σ)) =
       calculate_allocation income σ /\
     (forall prior : string,
         current_stage (self σ) = Some prior ->
         prior ∈ dom (class_GEAR_RATIOS σ) ->
         (0 <=? income)%float = true ->
         exists m σ',
           calculate_allocation income (store_of (set_life_stage stage σ)) =
             Returned m σ' /\
           current_stage (self σ') = Some prior)).
Proof.
  split.
  - unfold set_life_stage. case_decide as Hk.
    + exists true. split; [reflexivity|]. rewrite elem_of_dom. tauto.
    + exists false. split; [reflexivity|]. rewrite elem_of_dom.
      split; [discriminate | tauto].
  - intros Hk. rewrite elem_of_dom in Hk.
    assert (Hf : set_life_stage stage σ = Returned false σ).
    { unfold set_life_stage. case_decide; [tauto | reflexivity]. }
    split; [exact Hf|]. intros income. rewrite Hf. simpl.
    split; [reflexivity|].
    intros prior Hp Hd Hge. apply elem_of_dom in Hd as [[[rs re] ri] Hr].
    rewrite (calculate_allocation_returns income σ prior rs re ri Hp Hr
               (ge0_not_lt0 _ Hge)).
    eauto.
Qed.

Lemma set_life_stage_spec_witness :
  let σ := store_of (set_life_stage "Student" new_gearbox) in
  set_life_stage "Unemployed" σ = Returned false σ /\
  exists m σ',
    calculate_allocation 50000
      (store_of (set_life_stage "Unemployed" σ)) = Returned m σ' /\
    current_stage (self σ') = Some "Student".
Proof.
  intros σ.
  assert (Hk : "Unemployed" ∉ dom (class_GEAR_RATIOS σ)).
  { rewrite elem_of_dom. intros [x Hx]. vm_compute in Hx. discriminate Hx. }
  destruct (proj2 (set_life_stage_spec "Unemployed" σ) Hk) as [Hf Hc].
  split; [exact Hf|].
  apply (proj2 (Hc 50000%float) "Student"); [reflexivity| |reflexivity].
  rewrite elem_of_dom. eexists. vm_compute. reflexivity.
Defined.

(** C5. While no stage is selected, [calculate_allocation] of any income
    raises the [ValueError] of the unset stage (the check that comes first),
    and the store is the one before the call. *)
Theorem calculate_allocation_unset (income : float) (σ : Store) :
  current_stage (self σ) = None ->
  calculate_allocation income σ = Raised (ValueError msg_unset) σ.
Proof.
  intros Hs. unfold calculate_allocation. rewrite Hs. reflexivity.
Qed.

Lemma calculate_allocation_unset_witness :
  current_stage (self new_gearbox) = None /\
  calculate_allocation 50000 new_gearbox =
    Raised (ValueError msg_unset) new_gearbox.
Proof.
  split; [reflexivity|].
  apply (calculate_allocation_unset 50000 new_gearbox). reflexivity.
Defined.

(** C6. With any stage selected, [calculate_allocation] of an income with
    [income < 0] raises the [ValueError] of the negative income, and the
    store is the one before the call. *)
Theorem calculate_allocation_negative
        (income : float) (σ : Store) (stage : string) :
  current_stage (self σ) = Some stage ->
  (income <? 0)%float = true ->
  calculate_allocation income σ = Raised (ValueError msg_negative) σ.
Proof.
  intros Hs Hi. unfold calculate_allocation. rewrite Hs, Hi. reflexivity.
Qed.

Lemma calculate_allocation_negative_witness :
  let σ := store_of (set_life_stage "Retirement" new_gearbox) in
  current_stage (self σ) = Some "Retirement" /\
  (-1 <? 0)%float = true /\
  calculate_allocation (-1) σ = Raised (ValueError msg_negative) σ.
Proof.
  intros σ. split; [reflexivity|]. split; [reflexivity|].
  apply (calculate_allocation_negative (-1) σ "Retirement"); reflexivity.
Defined.

(** C7. For every stage of the table the three ratios are non-negative and
    their sum, added as Python adds floats and in either grouping, is the
    float 1.0; the exact sum of the three binary64 numbers is within 2^-54
    of 1. *)
Theorem gear_ratios_normalized (stage : string) (rs re ri : float) :
  GEAR_RATIOS !! stage = Some (rs, re, ri) ->
  (0 <=? rs)%float = true /\ (0 <=? re)%float = true /\
  (0 <=? ri)%float = true /\
  (rs + re + ri)%float = 1.0%float /\
  (rs + (re + ri))%float = 1.0%float /\
  exact_sum_near_one rs re ri.
Proof.
  intros H.
  destruct (GEAR_RATIOS_lookup _ _ H) as [[_ [= -> -> ->]]|[[_ [= -> -> ->]]|
    [[_ [= -> -> ->]]|[_ [= -> -> ->]]]]];
    do 5 (split; [reflexivity|]);
    do 3 eexists; do 3 (split; [vm_compute; reflexivity|]);
    apply Z.leb_le; vm_compute; reflexivity.
Qed.

Lemma gear_ratios_normalized_witness :
  GEAR_RATIOS !! "Family" = Some (0.25, 0.55, 0.20)%float /\
  (0.25 + 0.55 + 0.20)%float = 1.0%float.
Proof.
  split; [reflexivity|].
  apply (gear_ratios_normalized "Family" 0.25 0.55 0.20). reflexivity.
Defined.

(** C8. The table has the four stages Student, First Job, Family and
    Retirement and no other key, each with the stated triple, whose
    components are the binary64 numbers nearest to the stated decimals; a
    new object sees this table, and no sequence of method calls, returning
    or raising, changes the table the store holds. *)
Theorem gear_ratios_table :
  dom GEAR_RATIOS = stage_names /\
  GEAR_RATIOS !! "Student" = Some (0.10, 0.80, 0.10)%float /\
  GEAR_RATIOS !! "First Job" = Some (0.30, 0.50, 0.20)%float /\
  GEAR_RATIOS !! "Family" = Some (0.25, 0.55, 0.20)%float /\
  GEAR_RATIOS !! "Retirement" = Some (0.50, 0.30, 0.20)%float /\
  (forall stage : string,
      GEAR_RATIOS !! stage = None <-> stage ∉ stage_names) /\
  forallb (fun '(r, percent) => nearest_binary64 r percent 100)
    [(0.10%float, 10); (0.80%float, 80); (0.30%float, 30);
     (0.50%float, 50); (0.20%float, 20); (0.25%float, 25);
     (0.55%float, 55)] = true /\
  class_GEAR_RATIOS new_gearbox = GEAR_RATIOS /\
  (forall (money : float -> string) (cs : list call) (σ : Store),
      class_GEAR_RATIOS (run money cs σ) = class_GEAR_RATIOS σ).
Proof.
  assert (Hdom : dom GEAR_RATIOS = stage_names).
  { unfold GEAR_RATIOS, stage_names.
    rewrite !dom_insert_L, dom_empty_L. set_solver. }
  split; [exact Hdom|]. do 4 (split; [reflexivity|]).
  split; [|split; [vm_compute; reflexivity|split; [reflexivity|]]].
  - intros stage. rewrite <- Hdom. symmetry. apply not_elem_of_dom.
  - intros money cs. induction cs as [|c cs IH]; intros σ; [reflexivity|].
    unfold run in *. simpl. rewrite IH. apply step_class_GEAR_RATIOS.
Qed.

(** C9. A new object has no allocation: its [allocations] is the empty
    dictionary, and stays empty as long as no call is a
    [calculate_allocation].  [display_allocation] then prints only that
    nothing was calculated; on every store, returning or raising, it leaves
    the store as it found it. *)
Theorem display_allocation_pure :
  allocations (self new_gearbox) = ∅ /\
  (forall money : float -> string,
      display_allocation money new_gearbox =
        Returned ["No allocation calculated yet."] new_gearbox) /\
  (forall (money : float -> string) (σ : Store),
      store_of (display_allocation money σ) = σ) /\
  (forall (money : float -> string) (cs : list call),
      forallb (fun c => negb (is_calculate c)) cs = true ->
      allocations (self (run money cs new_gearbox)) = ∅ /\
      display_allocation money (run money cs new_gearbox) =
        Returned ["No allocation calculated yet."]
          (run money cs new_gearbox)).
Proof.
  assert (Hpure : forall money σ, store_of (display_allocation money σ) = σ).
  { intros money σ. unfold display_allocation.
    case_decide; [reflexivity|]. repeat (case_match; try reflexivity). }
  split; [reflexivity|]. split; [reflexivity|]. split; [exact Hpure|].
  intros money cs Hcs.
  assert (He : allocations (self (run money cs new_gearbox)) = ∅).
  { assert (Hgen : forall σ, allocations (self σ) = ∅ ->
                     allocations (self (run money cs σ)) = ∅).
    { induction cs as [|c cs IH]; intros σ Hσ; [exact Hσ|].
      simpl in Hcs. apply andb_prop in Hcs as [Hc Hcs].
      unfold run in *. simpl. apply IH; [exact Hcs|].
      destruct c as [stage|income| ]; simpl in *; [|discriminate|].
      - unfold set_life_stage. case_decide; exact Hσ.
      - rewrite Hpure. exact Hσ. }
    apply Hgen. reflexivity. }
  split; [exact He|].
  unfold display_allocation. rewrite He.
  case_decide; [reflexivity|congruence].
Qed.

Lemma display_allocation_pure_witness :
  let cs := [SetLifeStage "Family"; DisplayAllocation;
             SetLifeStage "Unemployed"] in
  allocations (self (run (fun _ => "") cs new_gearbox)) = ∅.
Proof.
  intros cs.
  apply (proj2 (proj2 (proj2 display_allocation_pure)) (fun _ => "") cs).
  reflexivity.
Defined.

(** C10. A failing [calculate_allocation] changes nothing.  When the stage
    is unset or the income is negative the call raises and the store
    (stage, income, allocations) is the one before the call; and whenever
    the call raises a [ValueError], or raises at all on a store whose stage
    is unset or a key of the table, it is for one of these two reasons and
    the store is the one before the call. *)
Theorem calculate_allocation_atomic (income : float) (σ : Store) :
  (current_stage (self σ) = None \/ (income <? 0)%float = true ->
   exists e, calculate_allocation income σ = Raised e σ) /\
  (forall (msg : string) (σ' : Store),
      calculate_allocation income σ = Raised (ValueError msg) σ' ->
      σ' = σ /\
      (current_stage (self σ) = None \/ (income <? 0)%float = true)) /\
  (stage_ok σ ->
   forall (e : exn) (σ' : Store),
     calculate_allocation income σ = Raised e σ' -> σ' = σ).
Proof.
  unfold stage_ok, calculate_allocation.
  destruct (current_stage (self σ)) as [stage|]; cycle 1.
  { split; [eauto|]. split; [intros ? ? [= _ <-]; auto|].
    intros _ ? ? [= _ <-]. reflexivity. }
  destruct (income <? 0)%float eqn:Hi.
  { split; [eauto|]. split; [intros ? ? [= _ <-]; auto|].
    intros _ ? ? [= _ <-]. reflexivity. }
  cbn [set_self class_GEAR_RATIOS].
  split; [intros [?|?]; discriminate|].
  destruct (class_GEAR_RATIOS σ !! stage) as [[[rs re] ri]|].
  - split; [discriminate|]. intros _ ? ?. discriminate.
  - split; [discriminate|]. intros [? [=]].
Qed.

Lemma calculate_allocation_atomic_witness :
  let σ := store_of (calculate_allocation 20000
             (store_of (set_life_stage "Retirement" new_gearbox))) in
  (-1 <? 0)%float = true /\
  exists e, calculate_allocation (-1) σ = Raised e σ.
Proof.
  intros σ. split; [reflexivity|].
  apply (proj1 (calculate_allocation_atomic (-1) σ)).
  right. reflexivity.
Defined.

(** ** Further properties: reached stores *)

Lemma allocation_of_lookup (income rs re ri : float) :
  allocation_of income rs re ri !! "Savings" = Some (income * rs)%float /\
  allocation_of income rs re ri !! "Expenses" = Some (income * re)%float /\
  allocation_of income rs re ri !! "Investments" = Some (income * ri)%float /\
  dom (allocation_of income rs re ri) = categories /\
  allocation_of income rs re ri <> ∅.
Proof.
  unfold allocation_of.
  split; [apply lookup_insert_eq|].
  split; [rewrite lookup_insert_ne by discriminate; apply lookup_insert_eq|].
  split; [rewrite !lookup_insert_ne by discriminate; apply lookup_insert_eq|].
  split; [|apply insert_non_empty].
  unfold categories. rewrite !dom_insert_L, dom_empty_L. set_solver.
Qed.

Lemma reachable_inv_new : reachable_inv new_gearbox.
Proof.
  split; [reflexivity|exact I|reflexivity|]. left. split; reflexivity.
Qed.

(** [display_allocation] writes no attribute. *)
Lemma display_allocation_store money (σ : Store) :
  store_of (display_allocation money σ) = σ.
Proof.
  unfold display_allocation. case_decide; [reflexivity|].
  repeat (case_match; try reflexivity).
Qed.

Lemma reachable_inv_step money (σ : Store) (c : call) :
  reachable_inv σ -> reachable_inv (step money σ c).
Proof.
  intros Hinv. pose proof Hinv as [Ht Hs Hi Ha].
  destruct c as [stage|x| ]; cbn [step].
  - unfold set_life_stage. case_decide as Hk; cbn [store_of];
      [|exact Hinv].
    split; cbn; try assumption.
    destruct Ha as [Ha|(st & rs & re & ri & Hr & Hc & Ha)]; [left; exact Ha|].
    right. exists st, rs, re, ri. split; [exact Hr|]. split; [discriminate|].
    exact Ha.
  - unfold calculate_allocation. unfold stage_ok in Hs.
    destruct (current_stage (self σ)) as [stage|] eqn:Hc; [|exact Hinv].
    destruct (x <? 0)%float eqn:Hx; [exact Hinv|].
    cbn [set_self class_GEAR_RATIOS].
    destruct Hs as [[[rs re] ri] Hr]. rewrite Hr. cbn [store_of].
    split; cbn; try assumption.
    + unfold stage_ok. cbn. eauto.
    + right. exists stage, rs, re, ri.
      rewrite <- Ht. split; [exact Hr|]. split; [discriminate|reflexivity].
  - rewrite display_allocation_store. exact Hinv.
Qed.

Lemma reachable_inv_run money (cs : list call) (σ : Store) :
  reachable_inv σ -> reachable_inv (run money cs σ).
Proof.
  revert σ. induction cs as [|c cs IH]; intros σ Hσ; [exact Hσ|].
  unfold run in *. cbn [foldl]. apply IH, reachable_inv_step, Hσ.
Qed.

(** X1. In every store reached from a new object the selected stage, if
    any, is one of the four keys; [calculate_allocation] then raises
    nothing but its two [ValueError]s, never a [KeyError], and
    [display_allocation] returns. *)
Theorem reachable_no_key_error (money : float -> string) (cs : list call) :
  let σ := run money cs new_gearbox in
  (forall stage, current_stage (self σ) = Some stage -> stage ∈ stage_names) /\
  (forall (income : float) (e : exn) (σ' : Store),
      calculate_allocation income σ = Raised e σ' ->
      (e = ValueError msg_unset /\ current_stage (self σ) = None) \/
      (e = ValueError msg_negative /\ (income <? 0)%float = true)) /\
  (exists lines, display_allocation money σ = Returned lines σ).
Proof.
  intros σ.
  destruct (reachable_inv_run money cs new_gearbox reachable_inv_new)
    as [Ht Hs Hi Ha]. fold σ in Ht, Hs, Hi, Ha.
  split; [|split].
  - intros stage Hc. unfold stage_ok in Hs. rewrite Hc, Ht in Hs.
    apply elem_of_dom in Hs.
    assert (Hdom : dom GEAR_RATIOS = stage_names).
    { unfold GEAR_RATIOS, stage_names.
      rewrite !dom_insert_L, dom_empty_L. set_solver. }
    rewrite <- Hdom. exact Hs.
  - intros x e σ'. unfold calculate_allocation. unfold stage_ok in Hs.
    destruct (current_stage (self σ)) as [stage|];
      [|intros [= <- _]; left; auto].
    destruct (x <? 0)%float; [intros [= <- _]; right; auto|].
    cbn [set_self class_GEAR_RATIOS].
    destruct Hs as [[[rs re] ri] ->]. discriminate.
  - unfold display_allocation.
    destruct Ha as [[Ha _]|(st & rs & re & ri & _ & _ & Ha)]; rewrite Ha.
    + case_decide; [eauto|congruence].
    + destruct (allocation_of_lookup (income (self σ)) rs re ri)
        as (-> & -> & -> & _ & Hne).
      case_decide; [congruence|eauto].
Qed.

(** X2. The income a reached store holds is never negative for Python:
    it is 0.0 until the first allocation, and afterwards the argument of
    the last call that returned, which passed the check. *)
Theorem stored_income_not_negative (money : float -> string) (cs : list call) :
  let σ := run money cs new_gearbox in
  (income (self σ) <? 0)%float = false /\
  (allocations (self σ) = ∅ -> income (self σ) = 0%float).
Proof.
  intros σ.
  destruct (reachable_inv_run money cs new_gearbox reachable_inv_new)
    as [Ht Hs Hi Ha]. fold σ in Ht, Hs, Hi, Ha.
  split; [exact Hi|]. intros He.
  destruct Ha as [[_ Ha]|(st & rs & re & ri & _ & _ & Ha)]; [exact Ha|].
  rewrite Ha in He.
  destruct (allocation_of_lookup (income (self σ)) rs re ri)
    as (_ & _ & _ & _ & Hne). congruence.
Qed.

(** X3. The income and the allocations a reached store holds belong
    together: the dictionary is empty, or it has the three categories and
    its values are the stored income times the ratios of one stage of the
    table (the stage selected when it was calculated). *)
Theorem stored_allocations_consistent
        (money : float -> string) (cs : list call) :
  let σ := run money cs new_gearbox in
  allocations (self σ) = ∅ \/
  (dom (allocations (self σ)) = categories /\
   exists stage rs re ri,
     GEAR_RATIOS !! stage = Some (rs, re, ri) /\
     allocations (self σ) !! "Savings" = Some (income (self σ) * rs)%float /\
     allocations (self σ) !! "Expenses" = Some (income (self σ) * re)%float /\
     allocations (self σ) !! "Investments"
       = Some (income (self σ) * ri)%float).
Proof.
  intros σ.
  destruct (reachable_inv_run money cs new_gearbox reachable_inv_new)
    as [Ht Hs Hi Ha]. fold σ in Ht, Hs, Hi, Ha.
  destruct Ha as [[Ha _]|(st & rs & re & ri & Hr & _ & Ha)]; [left; exact Ha|].
  right. rewrite Ha.
  destruct (allocation_of_lookup (income (self σ)) rs re ri)
    as (H1 & H2 & H3 & Hd & _).
  split; [exact Hd|]. exists st, rs, re, ri. auto.
Qed.

Lemma set_life_stage_same (stage : string) (σ : Store) :
  (is_Some (class_GEAR_RATIOS σ !! stage) ->
   current_stage (self σ) = Some stage) ->
  store_of (set_life_stage stage σ) = σ.
Proof.
  intros H. unfold set_life_stage. case_decide as Hk; [|reflexivity].
  specialize (H Hk). destruct σ as [table [cur inc al]].
  cbn in *. rewrite H. reflexivity.
Qed.

Lemma calculate_allocation_frame (income : float) (σ : Store) :
  class_GEAR_RATIOS (store_of (calculate_allocation income σ))
    = class_GEAR_RATIOS σ /\
  current_stage (self (store_of (calculate_allocation income σ)))
    = current_stage (self σ).
Proof.
  unfold calculate_allocation.
  destruct (current_stage (self σ)) as [stage|] eqn:Hc; [|auto].
  destruct (income <? 0)%float; [auto|].
  cbn [set_self class_GEAR_RATIOS].
  destruct (class_GEAR_RATIOS σ !! stage) as [[[rs re] ri]|]; auto.
Qed.

Lemma calculate_allocation_idempotent (income : float) (σ : Store) :
  calculate_allocation income (store_of (calculate_allocation income σ))
  = calculate_allocation income σ.
Proof.
  destruct (current_stage (self σ)) as [stage|] eqn:Hc.
  - destruct (income <? 0)%float eqn:Hx.
    + assert (E : calculate_allocation income σ
                  = Raised (ValueError msg_negative) σ)
        by (unfold calculate_allocation; rewrite Hc, Hx; reflexivity).
      rewrite E. exact E.
    + destruct (class_GEAR_RATIOS σ !! stage) as [[[rs re] ri]|] eqn:Hr.
      * rewrite (calculate_allocation_returns income σ stage rs re ri
                   Hc Hr Hx).
        cbv zeta. cbn [store_of].
        rewrite (calculate_allocation_returns income _ stage rs re ri)
          by (try reflexivity; assumption).
        reflexivity.
      * set (σ1 := set_self σ {| current_stage := Some stage;
                                 income := income;
                                 allocations := allocations (self σ) |}).
        assert (E : forall τ, current_stage (self τ) = Some stage ->
                      class_GEAR_RATIOS τ = class_GEAR_RATIOS σ ->
                      calculate_allocation income τ
                      = Raised (KeyError stage)
                          (set_self τ {| current_stage := Some stage;
                                         income := income;
                                         allocations := allocations (self τ) |})).
        { intros τ Hτ Ht. unfold calculate_allocation. rewrite Hτ, Hx.
          cbn [set_self class_GEAR_RATIOS]. rewrite Ht, Hr. reflexivity. }
        rewrite (E σ Hc eq_refl). cbn [store_of]. fold σ1.
        rewrite (E σ1) by reflexivity. reflexivity.
  - assert (E : calculate_allocation income σ
                = Raised (ValueError msg_unset) σ)
      by (unfold calculate_allocation; rewrite Hc; reflexivity).
    rewrite E. exact E.
Qed.

(** X4. Selecting a stage and calculating, as the web page does on every
    rerun, is idempotent: doing it again with the same stage and income
    gives the same outcome and the same store. *)
Theorem select_and_calculate_idempotent
        (stage : string) (income : float) (σ : Store) :
  let once := fun σ =>
    calculate_allocation income (store_of (set_life_stage stage σ)) in
  once (store_of (once σ)) = once σ.
Proof.
  intros once. unfold once.
  set (σ1 := store_of (set_life_stage stage σ)).
  destruct (calculate_allocation_frame income σ1) as [Ht Hc].
  rewrite set_life_stage_same; [apply calculate_allocation_idempotent|].
  rewrite Ht, Hc. unfold σ1, set_life_stage.
  case_decide as Hk; cbn [store_of]; [reflexivity|tauto].
Qed.

(** X5. After [calculate_allocation] returned, [display_allocation] prints
    the selected stage, the income just given and the three amounts just
    calculated, each through the two-decimal format. *)
Theorem display_after_calculate
        (money : float -> string) (σ : Store) (stage : string)
        (rs re ri x : float) :
  current_stage (self σ) = Some stage ->
  class_GEAR_RATIOS σ !! stage = Some (rs, re, ri) ->
  (x <? 0)%float = false ->
  let σ' := store_of (calculate_allocation x σ) in
  display_allocation money σ' =
  Returned (report money (Some stage) x (x * rs) (x * re) (x * ri)) σ'.
Proof.
  intros Hc Hr Hx σ'. unfold σ'.
  rewrite (calculate_allocation_returns x σ stage rs re ri Hc Hr Hx).
  cbn [store_of]. unfold display_allocation.
  cbn [self set_self allocations current_stage income].
  fold (allocation_of x rs re ri).
  destruct (allocation_of_lookup x rs re ri) as (-> & -> & -> & _ & Hne).
  case_decide; [congruence|reflexivity].
Qed.

(** X6. [set_life_stage] does not recalculate.  When an allocation is
    stored and another stage is selected, the stored income and amounts
    stay, and [display_allocation] prints the new stage name over the
    amounts of the earlier calculation. *)
Theorem display_after_stage_change
        (money : float -> string) (σ : Store) (stage : string)
        (s e i : float) :
  is_Some (class_GEAR_RATIOS σ !! stage) ->
  allocations (self σ) !! "Savings" = Some s ->
  allocations (self σ) !! "Expenses" = Some e ->
  allocations (self σ) !! "Investments" = Some i ->
  let σ' := store_of (set_life_stage stage σ) in
  income (self σ') = income (self σ) /\
  allocations (self σ') = allocations (self σ) /\
  display_allocation money σ =
    Returned (report money (current_stage (self σ)) (income (self σ)) s e i)
             σ /\
  display_allocation money σ' =
    Returned (report money (Some stage) (income (self σ)) s e i) σ'.
Proof.
  intros Hk Hs He Hi σ'. unfold σ', set_life_stage.
  rewrite decide_True by exact Hk. cbn [store_of].
  split; [reflexivity|]. split; [reflexivity|].
  assert (Hne : allocations (self σ) <> ∅).
  { intros H0. rewrite H0, lookup_empty in Hs. discriminate. }
  unfold display_allocation.
  cbn [self set_self allocations current_stage income].
  rewrite Hs, He, Hi.
  split; case_decide; try congruence; reflexivity.
Qed.

(** ** Further properties: amounts of every finite income *)

(** The product of a subnormal non-negative [x] with a ratio: within half
    a unit of the exact product. *)
Lemma mul_ratio_subnormal (x r : float) (mx mr : positive) (er : Z) :
  Prim2SF x = S754_finite false mx (-1074) ->
  Prim2SF r = S754_finite false mr er ->
  Zpos mx < 2 ^ 52 ->
  -56 <= er <= -53 ->
  let R := Zpos mr * 2 ^ (er + 56) in
  exists up,
    ulps (x * r) = Some up /\ 0 <= up /\
    2 * Z.abs (2 ^ 56 * up - Zpos mx * R) <= 2 ^ 56.
Proof.
  intros Hx Hr Hmx Her R.
  pose proof (Prim2SF_valid r) as Vr. rewrite Hr in Vr.
  apply valid_finite in Vr as (_ & Hmr' & Hmr). specialize (Hmr ltac:(lia)).
  unfold ulps. rewrite mul_spec, Hx, Hr.
  cbn [SF64mul SFmul xorb]. rewrite binary_round_aux_round64.
  set (M := (mx * mr)%positive).
  assert (HM : Zpos M = Zpos mx * Zpos mr) by apply Pos2Z.inj_mul.
  set (E := -1074 + er).
  assert (HMb : 2 ^ 52 <= Zpos M < 2 ^ 105).
  { rewrite HM. change (2 ^ 105) with (2 ^ 52 * 2 ^ 53). split.
    - change (2 ^ 52) with (1 * 2 ^ 52). apply Z.mul_le_mono_nonneg; lia.
    - apply Z.mul_lt_mono_nonneg; lia. }
  pose proof (digits_of_bounds M 52 105 ltac:(lia) HMb) as Hd.
  set (d := Zpos (digits2_pos M)) in *.
  set (n := fexp64 (d + E) - E).
  assert (Hn : n = - er) by (unfold n, fexp64, E; lia).
  destruct (rne_bound (Zpos M) n) as [[Hlo Hhi] Herr]; [lia|lia|].
  assert (H0 : 0 <= Zpos M / 2 ^ n)
    by (apply Z.div_pos; [lia|apply pow2_pos; lia]).
  rewrite (round64_ulps_shift M E); fold d; fold n; try (unfold E; lia).
  set (m2 := rne (Zpos M) n) in *.
  replace (E + n + 1074) with 0 by (unfold E; lia).
  rewrite Z.pow_0_r, Z.mul_1_r.
  exists m2. split; [reflexivity|]. split; [lia|].
  set (c := 2 ^ (er + 56)).
  assert (Hc : 0 < c) by (apply pow2_pos; lia).
  assert (HNc : 2 ^ n * c = 2 ^ 56).
  { unfold c. rewrite <- Z.pow_add_r by lia. f_equal. lia. }
  assert (Hdiff : 2 ^ 56 * m2 - Zpos mx * R = (m2 * 2 ^ n - Zpos M) * c).
  { unfold R. fold c. rewrite HM, <- HNc. ring. }
  rewrite Hdiff, Z.abs_mul, (Z.abs_eq c) by lia.
  rewrite <- HNc.
  replace (2 * (Z.abs (m2 * 2 ^ n - Zpos M) * c))
    with ((2 * Z.abs (m2 * 2 ^ n - Zpos M)) * c) by ring.
  apply Z.mul_le_mono_nonneg_r; lia.
Qed.

(** The product of any finite non-negative [x] with a ratio: finite, not
    negative, and within 2^-53 of the exact product plus half a unit. *)
Lemma mul_ratio_finite (x r : float) (mx mr : positive) (ex er : Z) :
  Prim2SF x = S754_finite false mx ex ->
  Prim2SF r = S754_finite false mr er ->
  -56 <= er <= -53 ->
  let ux := Zpos mx * 2 ^ (ex + 1074) in
  let R := Zpos mr * 2 ^ (er + 56) in
  exists up,
    ulps (x * r) = Some up /\ 0 <= up /\
    - (ux * R + 2 ^ 108) <= 2 ^ 53 * (2 ^ 56 * up - ux * R)
      <= ux * R + 2 ^ 108.
Proof.
  intros Hx Hr Her ux R.
  pose proof (Prim2SF_valid x) as Vx. rewrite Hx in Vx.
  apply valid_finite in Vx as (Hex & Hmx' & Hnorm).
  pose proof (ratio_scaled_bounds mr er r Hr Her) as HR. fold R in HR.
  assert (HU : 0 < 2 ^ (ex + 1074)) by (apply pow2_pos; lia).
  assert (HA : 0 <= ux * R).
  { apply Z.mul_nonneg_nonneg; [|lia].
    apply Z.mul_nonneg_nonneg; lia. }
  destruct (Z_le_gt_dec (2 ^ 52) (Zpos mx)) as [Hbig|Hsmall].
  - destruct (mul_ratio_ulps x r mx mr ex er Hx Hr Hbig Her)
      as (up & Hup & Hup0 & B).
    exists up. split; [exact Hup|]. split; [exact Hup0|].
    apply product_bound_linear; assumption.
  - assert (ex = -1074).
    { destruct (Z.eq_dec ex (-1074)); [assumption|].
      specialize (Hnorm ltac:(lia)). lia. }
    subst ex.
    destruct (mul_ratio_subnormal x r mx mr er Hx Hr ltac:(lia) Her)
      as (up & Hup & Hup0 & B).
    exists up. split; [exact Hup|]. split; [exact Hup0|].
    assert (Hux : ux = Zpos mx) by (unfold ux; simpl; lia).
    rewrite Hux in *. fold R in B.
    apply product_bound_linear; [assumption|right; exact B].
Qed.

(** A float that is [>= 0] and [< inf] for Python is a zero or a positive
    finite number. *)
Lemma finite_nonneg_cases (x : float) :
  (0 <=? x)%float = true -> (x <? infinity)%float = true ->
  (exists s, Prim2SF x = S754_zero s) \/
  (exists m e, Prim2SF x = S754_finite false m e).
Proof.
  rewrite leb_spec, ltb_spec.
  change (Prim2SF 0) with (S754_zero false).
  change (Prim2SF infinity) with (S754_infinity false).
  destruct (Prim2SF x) as [s|s| |s m e]; try destruct s;
    cbv [SFleb SFltb SFcompare]; try discriminate; eauto.
Qed.

Lemma amount_in_range_ratio (x r : float) (mr : positive) (er : Z) :
  (0 <=? x)%float = true -> (x <? infinity)%float = true ->
  Prim2SF r = S754_finite false mr er ->
  -56 <= er <= -53 ->
  Zpos mr * 2 ^ (er + 56) <= 2 ^ 56 - 2 ^ 52 ->
  amount_in_range (x * r) x.
Proof.
  intros H0 Hinf Hr Her HR.
  destruct (finite_nonneg_cases x H0 Hinf) as [[s Hx]|(mx & ex & Hx)].
  - exists 0, 0. split; [exact (mul_zero_ulps x r s mr er Hx Hr)|].
    split; [unfold ulps; rewrite Hx; reflexivity|lia].
  - destruct (mul_ratio_finite x r mx mr ex er Hx Hr Her)
      as (up & Hup & Hup0 & B).
    pose proof (Prim2SF_valid x) as Vx. rewrite Hx in Vx.
    apply valid_finite in Vx as (Hex & _ & _).
    pose proof (ratio_scaled_bounds mr er r Hr Her) as HRb.
    set (ux := Zpos mx * 2 ^ (ex + 1074)) in *.
    set (R := Zpos mr * 2 ^ (er + 56)) in *.
    assert (Hux : 0 < ux).
    { apply Z.mul_pos_pos; [lia|apply pow2_pos; lia]. }
    assert (HA : ux * R <= ux * (2 ^ 56 - 2 ^ 52))
      by (apply Z.mul_le_mono_nonneg_l; lia).
    exists up, ux. split; [exact Hup|].
    split; [unfold ulps; rewrite Hx; reflexivity|].
    set (A := ux * R) in *. clearbody A ux. lia.
Qed.

Lemma exact_sum_error_ratios
      (x rs re ri : float) (ms me mi : positive) (es ee ei : Z) :
  (0 <=? x)%float = true -> (x <? infinity)%float = true ->
  Prim2SF rs = S754_finite false ms es ->
  Prim2SF re = S754_finite false me ee ->
  Prim2SF ri = S754_finite false mi ei ->
  -56 <= es <= -53 -> -56 <= ee <= -53 -> -56 <= ei <= -53 ->
  Z.abs (Zpos ms * 2 ^ (es + 56) + Zpos me * 2 ^ (ee + 56)
         + Zpos mi * 2 ^ (ei + 56) - 2 ^ 56) <= 4 ->
  exact_sum_error_bounded (x * rs) (x * re) (x * ri) x.
Proof.
  intros H0 Hinf Hrs Hre Hri Hes Hee Hei Hsum.
  destruct (finite_nonneg_cases x H0 Hinf) as [[s Hx]|(mx & ex & Hx)].
  - exists 0, 0, 0, 0.
    split; [exact (mul_zero_ulps x rs s ms es Hx Hrs)|].
    split; [exact (mul_zero_ulps x re s me ee Hx Hre)|].
    split; [exact (mul_zero_ulps x ri s mi ei Hx Hri)|].
    split; [unfold ulps; rewrite Hx; reflexivity|]. simpl. lia.
  - destruct (mul_ratio_finite x rs mx ms ex es Hx Hrs Hes)
      as (us & Hus & Hus0 & Bs).
    destruct (mul_ratio_finite x re mx me ex ee Hx Hre Hee)
      as (ue & Hue & Hue0 & Be).
    destruct (mul_ratio_finite x ri mx mi ex ei Hx Hri Hei)
      as (ui & Hui & Hui0 & Bi).
    pose proof (Prim2SF_valid x) as Vx. rewrite Hx in Vx.
    apply valid_finite in Vx as (Hex & _ & _).
    set (ux := Zpos mx * 2 ^ (ex + 1074)) in *.
    set (Rs := Zpos ms * 2 ^ (es + 56)) in *.
    set (Re := Zpos me * 2 ^ (ee + 56)) in *.
    set (Ri := Zpos mi * 2 ^ (ei + 56)) in *.
    assert (Hux : 0 < ux).
    { apply Z.mul_pos_pos; [lia|apply pow2_pos; lia]. }
    exists us, ue, ui, ux. do 3 (split; [assumption|]).
    split; [unfold ulps; rewrite Hx; reflexivity|].
    assert (HT : ux * Rs + ux * Re + ux * Ri =
                 2 ^ 56 * ux + ux * (Rs + Re + Ri - 2 ^ 56)) by ring.
    assert (HD : -(4 * ux) <= ux * (Rs + Re + Ri - 2 ^ 56) <= 4 * ux).
    { apply Z.abs_le in Hsum. destruct Hsum as [Hl Hu]. split.
      - replace (- (4 * ux)) with (ux * (-4)) by ring.
        apply Z.mul_le_mono_nonneg_l; lia.
      - rewrite (Z.mul_comm 4 ux).
        apply Z.mul_le_mono_nonneg_l; lia. }
    set (As := ux * Rs) in *. set (Ae := ux * Re) in *.
    set (Ai := ux * Ri) in *. set (Dl := ux * (Rs + Re + Ri - 2 ^ 56)) in *.
    clearbody As Ae Ai Dl ux.
    clear - HT HD Bs Be Bi Hux.
    apply abs_scaled; lia.
Qed.

Lemma nearest_binary64_spec (r : float) (mr : positive) (er p : Z) :
  Prim2SF r = S754_finite false mr er -> -56 <= er <= -53 ->
  nearest_binary64 r p 100 = true ->
  0 < p /\ Z.abs (100 * (Zpos mr * 2 ^ (er + 56)) - p * 2 ^ 56) <= 400.
Proof.
  intros Hr Her Hn. unfold nearest_binary64 in Hn. rewrite Hr in Hn.
  apply andb_prop in Hn as [_ Hn]. apply Z.leb_le in Hn.
  pose proof (Prim2SF_valid r) as V. rewrite Hr in V.
  apply valid_finite in V as (_ & _ & Hm). specialize (Hm ltac:(lia)).
  assert (er = -56 \/ er = -55 \/ er = -54 \/ er = -53) as [->|[->|[->| ->]]]
    by lia; simpl Z.pow in *; lia.
Qed.

Lemma within_1e9_of_percent_ratio
      (x r : float) (mr : positive) (er p : Z) :
  zero_or_normal x ->
  Prim2SF r = S754_finite false mr er -> -56 <= er <= -53 ->
  nearest_binary64 r p 100 = true ->
  within_1e9_of_percent (x * r) x p.
Proof.
  intros [Hz|[Hlo Hhi]] Hr Her Hn.
  - destruct (eqb_zero x Hz) as [s Hx]. exists 0, 0.
    split; [exact (mul_zero_ulps x r s mr er Hx Hr)|].
    split; [unfold ulps; rewrite Hx; reflexivity|]. simpl. lia.
  - destruct (normal_ulps x Hlo Hhi) as (mx & ex & Hx & _ & Hux & _).
    destruct (mul_ratio_finite x r mx mr ex er Hx Hr Her)
      as (up & Hup & Hup0 & B).
    destruct (nearest_binary64_spec r mr er p Hr Her Hn) as [Hp HR].
    pose proof (ratio_scaled_bounds mr er r Hr Her) as HRb.
    set (ux := Zpos mx * 2 ^ (ex + 1074)) in *.
    set (R := Zpos mr * 2 ^ (er + 56)) in *.
    exists up, ux. split; [exact Hup|].
    split; [unfold ulps; rewrite Hx; reflexivity|].
    assert (HA : 0 <= ux * R <= ux * 2 ^ 56).
    { split; [apply Z.mul_nonneg_nonneg; lia|].
      apply Z.mul_le_mono_nonneg_l; lia. }
    assert (HT : 100 * (ux * R) = p * 2 ^ 56 * ux
                                  + ux * (100 * R - p * 2 ^ 56)) by ring.
    assert (HD : - (400 * ux) <= ux * (100 * R - p * 2 ^ 56) <= 400 * ux).
    { apply Z.abs_le in HR. destruct HR as [Hl Hu]. split.
      - replace (- (400 * ux)) with (ux * (-400)) by ring.
        apply Z.mul_le_mono_nonneg_l; lia.
      - rewrite (Z.mul_comm 400 ux).
        apply Z.mul_le_mono_nonneg_l; lia. }
    assert (Hpu : 1 * ux <= p * ux)
      by (apply Z.mul_le_mono_nonneg_r; lia).
    set (A := ux * R) in *. set (D := ux * (100 * R - p * 2 ^ 56)) in *.
    set (P := p * ux) in *.
    replace (p * 2 ^ 56 * ux) with (2 ^ 56 * P) in HT by (unfold P; ring).
    clearbody A D P ux. clear - HT HD HA B Hux Hpu.
    apply abs_scaled; lia.
Qed.

(** A call with a selected stage of the table and an income that is not
    negative returns the products. *)
Lemma calculate_on_table (σ : Store) (stage : string) (income : float) :
  class_GEAR_RATIOS σ = GEAR_RATIOS ->
  current_stage (self σ) = Some stage ->
  stage ∈ dom GEAR_RATIOS ->
  (income <? 0)%float = false ->
  exists rs re ri σ',
    GEAR_RATIOS !! stage = Some (rs, re, ri) /\
    calculate_allocation income σ =
      Returned (allocation_of income rs re ri) σ'.
Proof.
  intros Hcls Hcur Hdom Hx.
  apply elem_of_dom in Hdom as [[[rs re] ri] Hr].
  exists rs, re, ri. eexists. split; [exact Hr|].
  rewrite <- Hcls in Hr.
  exact (calculate_allocation_returns income σ stage rs re ri Hcur Hr Hx).
Qed.

(** Facts on a ratio literal, by evaluation. *)
Ltac ratio_fact :=
  first [ vm_compute; reflexivity
        | lia
        | apply Z.leb_le; vm_compute; reflexivity ].

(** X7. For every stage of the table and every finite income [>= 0],
    subnormal ones included, each of the three amounts is finite and its
    exact value lies between 0 and the income: no category is negative,
    overflows or exceeds the income. *)
Theorem amounts_between_zero_and_income
        (σ : Store) (stage : string) (income : float) :
  class_GEAR_RATIOS σ = GEAR_RATIOS ->
  current_stage (self σ) = Some stage ->
  stage ∈ dom GEAR_RATIOS ->
  (0 <=? income)%float = true -> (income <? infinity)%float = true ->
  exists m σ' s e i,
    calculate_allocation income σ = Returned m σ' /\
    m !! "Savings" = Some s /\ m !! "Expenses" = Some e /\
    m !! "Investments" = Some i /\
    amount_in_range s income /\ amount_in_range e income /\
    amount_in_range i income.
Proof.
  intros Hcls Hcur Hdom H0 Hinf.
  destruct (calculate_on_table σ stage income Hcls Hcur Hdom
              (ge0_not_lt0 _ H0)) as (rs & re & ri & σ' & Hr & Hcalc).
  destruct (allocation_of_lookup income rs re ri) as (L1 & L2 & L3 & _).
  exists (allocation_of income rs re ri), σ',
    (income * rs)%float, (income * re)%float, (income * ri)%float.
  do 4 (split; [assumption|]).
  destruct (GEAR_RATIOS_lookup _ _ Hr) as [[_ [= -> -> ->]]|[[_ [= -> -> ->]]|
    [[_ [= -> -> ->]]|[_ [= -> -> ->]]]]];
    repeat split;
    eapply (amount_in_range_ratio income _ _ _ H0 Hinf); ratio_fact.
Qed.

(** X8. For every stage of the table and every finite income [>= 0],
    subnormal ones included, the exact sum of the three amounts differs
    from the income by at most 1.5 * 2^-1074 + 2^-52 * income. *)
Theorem allocation_sum_error
        (σ : Store) (stage : string) (income : float) :
  class_GEAR_RATIOS σ = GEAR_RATIOS ->
  current_stage (self σ) = Some stage ->
  stage ∈ dom GEAR_RATIOS ->
  (0 <=? income)%float = true -> (income <? infinity)%float = true ->
  exists m σ' s e i,
    calculate_allocation income σ = Returned m σ' /\
    m !! "Savings" = Some s /\ m !! "Expenses" = Some e /\
    m !! "Investments" = Some i /\
    exact_sum_error_bounded s e i income.
Proof.
  intros Hcls Hcur Hdom H0 Hinf.
  destruct (calculate_on_table σ stage income Hcls Hcur Hdom
              (ge0_not_lt0 _ H0)) as (rs & re & ri & σ' & Hr & Hcalc).
  destruct (allocation_of_lookup income rs re ri) as (L1 & L2 & L3 & _).
  exists (allocation_of income rs re ri), σ',
    (income * rs)%float, (income * re)%float, (income * ri)%float.
  do 4 (split; [assumption|]).
  destruct (GEAR_RATIOS_lookup _ _ Hr) as [[_ [= -> -> ->]]|[[_ [= -> -> ->]]|
    [[_ [= -> -> ->]]|[_ [= -> -> ->]]]]];
    eapply (exact_sum_error_ratios income _ _ _ _ _ _ _ _ _ H0 Hinf);
    ratio_fact.
Qed.

(** X9. For every stage and every income that is zero or a finite number
    from 2^-1022 on, each amount is within 1e-9, relatively, of the
    percentage of the income that the decimal literal of the table states:
    for "Student", 10%, 80% and 10%. *)
Theorem amounts_match_percentages
        (σ : Store) (stage : string) (income : float) (ps pe pi : Z) :
  class_GEAR_RATIOS σ = GEAR_RATIOS ->
  current_stage (self σ) = Some stage ->
  GEAR_PERCENTS !! stage = Some (ps, pe, pi) ->
  zero_or_normal income ->
  exists m σ' s e i,
    calculate_allocation income σ = Returned m σ' /\
    m !! "Savings" = Some s /\ m !! "Expenses" = Some e /\
    m !! "Investments" = Some i /\
    within_1e9_of_percent s income ps /\
    within_1e9_of_percent e income pe /\
    within_1e9_of_percent i income pi.
Proof.
  intros Hcls Hcur Hp Hinc.
  assert (Hcases :
    exists rs re ri, GEAR_RATIOS !! stage = Some (rs, re, ri) /\
      nearest_binary64 rs ps 100 = true /\
      nearest_binary64 re pe 100 = true /\
      nearest_binary64 ri pi 100 = true).
  { unfold GEAR_PERCENTS in Hp.
    rewrite !lookup_insert, lookup_empty in Hp.
    repeat case_decide; try discriminate; subst;
      injection Hp as <- <- <-; do 3 eexists;
      (split; [reflexivity|]); repeat split; vm_compute; reflexivity. }
  destruct Hcases as (rs & re & ri & Hr & Ns & Ne & Ni).
  assert (Hdom : stage ∈ dom GEAR_RATIOS) by (apply elem_of_dom; eauto).
  destruct (calculate_on_table σ stage income Hcls Hcur Hdom
              (zero_or_normal_not_lt0 _ Hinc))
    as (rs' & re' & ri' & σ' & Hr' & Hcalc).
  rewrite Hr in Hr'. injection Hr' as <- <- <-.
  destruct (allocation_of_lookup income rs re ri) as (L1 & L2 & L3 & _).
  exists (allocation_of income rs re ri), σ',
    (income * rs)%float, (income * re)%float, (income * ri)%float.
  do 4 (split; [assumption|]).
  destruct (GEAR_RATIOS_lookup _ _ Hr) as [[_ [= -> -> ->]]|[[_ [= -> -> ->]]|
    [[_ [= -> -> ->]]|[_ [= -> -> ->]]]]];
    repeat split;
    (eapply (within_1e9_of_percent_ratio income _ _ _ _ Hinc);
     [vm_compute; reflexivity | lia | assumption]).
Qed.

(** A float that differs from itself is the NaN. *)
Lemma nan_cases (x : float) :
  (x =? x)%float = false -> Prim2SF x = S754_nan.
Proof.
  rewrite FloatAxioms.eqb_spec.
  destruct (Prim2SF x) as [s|s| |s m e]; try reflexivity;
    destruct s; cbv [SFeqb SFcompare];
    rewrite ?Z.compare_refl, ?Pos.compare_cont_refl; discriminate.
Qed.

Lemma mul_nan (x r : float) :
  (x =? x)%float = false -> (x * r =? x * r)%float = false.
Proof.
  intros Hx. apply nan_cases in Hx.
  rewrite FloatAxioms.eqb_spec, mul_spec, Hx. reflexivity.
Qed.

(** X10. Incomes that are not finite are not rejected.  With a stage of
    the table selected, a NaN income passes the check [income < 0]: the
    call returns, stores the NaN as income, and all three amounts are NaN;
    the income [inf] gives three amounts [inf]. *)
Theorem nonfinite_income_accepted
        (σ : Store) (stage : string) (x : float) :
  class_GEAR_RATIOS σ = GEAR_RATIOS ->
  current_stage (self σ) = Some stage ->
  stage ∈ dom GEAR_RATIOS ->
  ((x =? x)%float = false ->
   exists m σ' s e i,
     calculate_allocation x σ = Returned m σ' /\
     income (self σ') = x /\
     m !! "Savings" = Some s /\ m !! "Expenses" = Some e /\
     m !! "Investments" = Some i /\
     (s =? s)%float = false /\ (e =? e)%float = false /\
     (i =? i)%float = false) /\
  (x = infinity ->
   exists σ',
     calculate_allocation x σ =
       Returned (<["Savings" := infinity]>
                 (<["Expenses" := infinity]>
                 (<["Investments" := infinity]> ∅))) σ').
Proof.
  intros Hcls Hcur Hdom. split.
  - intros Hnan.
    assert (Hx : (x <? 0)%float = false).
    { rewrite ltb_spec, (nan_cases x Hnan). reflexivity. }
    apply elem_of_dom in Hdom as [[[rs re] ri] Hr]. rewrite <- Hcls in Hr.
    pose proof (calculate_allocation_returns x σ stage rs re ri
                  Hcur Hr Hx) as Hcalc. cbv zeta in Hcalc.
    destruct (allocation_of_lookup x rs re ri) as (L1 & L2 & L3 & _).
    do 2 eexists.
    exists (x * rs)%float, (x * re)%float, (x * ri)%float.
    split; [exact Hcalc|]. split; [reflexivity|].
    do 3 (split; [assumption|]).
    repeat split; apply mul_nan, Hnan.
  - intros ->.
    destruct (calculate_on_table σ stage infinity Hcls Hcur Hdom eq_refl)
      as (rs & re & ri & σ' & Hr & Hcalc).
    exists σ'. rewrite Hcalc. f_equal. unfold allocation_of.
    destruct (GEAR_RATIOS_lookup _ _ Hr) as [[_ [= -> -> ->]]|[[_ [= -> -> ->]]|
      [[_ [= -> -> ->]]|[_ [= -> -> ->]]]]]; reflexivity.
Qed.

(** ** Running [main] *)

Section MainProofs.
Variable money : float -> string.
Variable whole : float -> string.
Variable float_of_str : string -> option float.
Variable strip : string -> string.
Variable lower : string -> string.

Lemma print_bind {A} (s : string) (k : io A) (w : world) :
  (print s ;; k) w =
  k {| stdin := stdin w; stdout := stdout w ++ [Print s]; heap := heap w |}.
Proof. reflexivity. Qed.

Lemma emit_bind {A} (e : event) (k : io A) (w : world) :
  (emit e ;; k) w =
  k {| stdin := stdin w; stdout := stdout w ++ [e]; heap := heap w |}.
Proof. reflexivity. Qed.

Lemma ret_bind {A B} (a : A) (k : A -> io B) (w : world) :
  (mret a ≫= k) w = k a w.
Proof. reflexivity. Qed.

Lemma return_bind {A B} (k : A -> io B) (w : world) :
  (return_ ≫= k) w = (inr Return_, w).
Proof. reflexivity. Qed.

Lemma input_bind {A} (text : string) (k : string -> io A)
      (lines : list string) (out : list event) (σ : Store) :
  (input text ≫= k) {| stdin := lines; stdout := out; heap := σ |} =
  match lines with
  | [] => (inr EOFError,
           {| stdin := []; stdout := out ++ [Prompt text]; heap := σ |})
  | line :: rest =>
    k line {| stdin := rest; stdout := out ++ [Prompt text]; heap := σ |}
  end.
Proof. destruct lines; reflexivity. Qed.

Lemma invoke_bind {A B} (method : Store -> outcome A) (k : A -> io B)
      (lines : list string) (out : list event) (σ : Store) :
  (invoke method ≫= k) {| stdin := lines; stdout := out; heap := σ |} =
  match method σ with
  | Returned v σ' => k v {| stdin := lines; stdout := out; heap := σ' |}
  | Raised e σ' =>
    (inr (Uncaught e), {| stdin := lines; stdout := out; heap := σ' |})
  end.
Proof.
  unfold mbind, io_mbind, io_bind, invoke. cbn [heap stdin stdout].
  destruct (method σ); reflexivity.
Qed.

Lemma for_each_print {A} (ls : list string) (k : io A) (w : world) :
  (for_each ls print ;; k) w =
  k {| stdin := stdin w; stdout := stdout w ++ (Print <$> ls);
       heap := heap w |}.
Proof.
  revert w. induction ls as [|l ls IH]; intros w.
  - cbn [for_each fmap list_fmap]. rewrite ret_bind, app_nil_r.
    destruct w; reflexivity.
  - cbn [for_each fmap list_fmap].
    change ((print l ;; for_each ls print) ;; k)
      with (fun w => (print l ;; (for_each ls print ;; k)) w) at 1.
    cbv beta. rewrite print_bind, IH. cbn [stdin stdout heap].
    rewrite <- app_assoc. reflexivity.
Qed.

(** The statements of [main] before its first question. *)
Lemma main_banner (rest_of_main : io unit) (lines : list string) :
  (print "⚙ The Financial Gearbox - Automated Budget Allocation System" ;;
   print (repeat_str "=" 60) ;;
   construct ;;
   print (nl ++ "Available Life Stages:") ;;
   for_each (imap (fun i stage => (S i, stage)) GEAR_RATIOS_keys)
            (fun '(i, stage) => stage_line whole i stage) ;;
   print (nl ++ repeat_str "-" 60) ;;
   rest_of_main)
    {| stdin := lines; stdout := []; heap := new_gearbox |} =
  rest_of_main
    {| stdin := lines; stdout := banner whole; heap := new_gearbox |}.
Proof. vm_compute. reflexivity. Qed.

Lemma display_allocation_of (σ : Store) (x rs re ri : float) :
  allocations (self σ) = allocation_of x rs re ri ->
  display_allocation money σ =
  Returned (report money (current_stage (self σ)) (income (self σ))
              (x * rs) (x * re) (x * ri)) σ.
Proof.
  intros Ha. unfold display_allocation. rewrite Ha.
  destruct (allocation_of_lookup x rs re ri) as (-> & -> & -> & _ & Hne).
  case_decide; [congruence|reflexivity].
Qed.

Lemma set_life_stage_new (stage : string) :
  set_life_stage stage new_gearbox =
  match GEAR_RATIOS !! stage with
  | Some _ =>
    Returned true (set_self new_gearbox
                     {| current_stage := Some stage; income := 0;
                        allocations := ∅ |})
  | None => Returned false new_gearbox
  end.
Proof.
  unfold set_life_stage. cbn [class_GEAR_RATIOS new_gearbox].
  destruct (GEAR_RATIOS !! stage) eqn:Hr.
  - rewrite decide_True by eauto. reflexivity.
  - rewrite decide_False by (intros [? [=]]). reflexivity.
Qed.

Lemma print_return_bind {A B} (line : string) (k : A -> io B) (w : world) :
  ((print line ;; return_) ≫= k) w =
  (inr Return_,
   {| stdin := stdin w; stdout := stdout w ++ [Print line];
      heap := heap w |}).
Proof. reflexivity. Qed.

(** [main] in closed form: what it returns and the world it leaves, by
    cases on the lines it finds. *)
Lemma run_main_cases (lines : list string) :
  run_main money whole float_of_str strip lower lines =
  match lines with
  | [] =>
    (inr EOFError,
     {| stdin := []; stdout := banner whole ++ [Prompt prompt_stage];
        heap := new_gearbox |})
  | line :: lines =>
    match GEAR_RATIOS !! strip line with
    | None =>
      (inr Return_,
       {| stdin := lines;
          stdout := banner whole
                    ++ [Prompt prompt_stage;
                        Print (error_stage (strip line))];
          heap := new_gearbox |})
    | Some (rs, re, ri) =>
      let σ1 := set_self new_gearbox
                  {| current_stage := Some (strip line); income := 0;
                     allocations := ∅ |} in
      let asked : list event :=
        (banner whole ++ [Prompt prompt_stage; Prompt prompt_income])%list in
      match lines with
      | [] => (inr EOFError, {| stdin := []; stdout := asked; heap := σ1 |})
      | text :: lines =>
        match float_of_str text with
        | None =>
          (inr Return_,
           {| stdin := lines; stdout := asked ++ [Print error_number];
              heap := σ1 |})
        | Some x =>
          if (x <? 0)%float then
            (inr Return_,
             {| stdin := lines; stdout := asked ++ [Print error_negative];
                heap := σ1 |})
          else
            let σ2 := set_self new_gearbox
                        {| current_stage := Some (strip line); income := x;
                           allocations := allocation_of x rs re ri |} in
            let shown : list event :=
              (asked
               ++ (Print <$> report money (Some (strip line)) x
                               (x * rs) (x * re) (x * ri))
               ++ [Prompt prompt_charts])%list in
            match lines with
            | [] =>
              (inr EOFError, {| stdin := []; stdout := shown; heap := σ2 |})
            | answer :: lines =>
              (inl tt,
               {| stdin := lines;
                  stdout := shown ++ charts strip lower answer;
                  heap := σ2 |})
            end
        end
      end
    end
  end.
Proof.
  unfold run_main, main. rewrite main_banner, input_bind.
  destruct lines as [|line lines]; [reflexivity|]. cbv zeta.
  rewrite invoke_bind, set_life_stage_new.
  destruct (GEAR_RATIOS !! strip line) as [[[rs re] ri]|] eqn:Hk.
  2:{ cbn [negb]. rewrite print_return_bind. cbn [stdin stdout heap].
      rewrite <- app_assoc. reflexivity. }
  cbn [negb]. rewrite ret_bind, input_bind.
  destruct lines as [|text lines];
    [rewrite <- app_assoc; reflexivity|].
  destruct (float_of_str text) as [x|].
  2:{ rewrite print_return_bind. cbn [stdin stdout heap].
      rewrite <- !app_assoc. reflexivity. }
  destruct (x <? 0)%float eqn:Hneg.
  { rewrite print_return_bind. cbn [stdin stdout heap].
    rewrite <- !app_assoc. reflexivity. }
  rewrite ret_bind, invoke_bind.
  rewrite (calculate_allocation_returns x _ (strip line) rs re ri)
    by (try reflexivity; assumption).
  cbv zeta. rewrite invoke_bind.
  rewrite (display_allocation_of _ x rs re ri) by reflexivity.
  rewrite for_each_print. cbn [stdin stdout heap]. rewrite input_bind.
  destruct lines as [|answer lines].
  { repeat rewrite <- app_assoc. reflexivity. }
  unfold charts.
  destruct (in_list (lower (strip answer)) ["pie"; "both"]);
    destruct (in_list (lower (strip answer)) ["bar"; "both"]);
    cbn [app]; repeat rewrite <- app_assoc; reflexivity.
Qed.

(** X11. With an unknown stage name, surrounding blanks aside, [main]
    prints the error that names it and returns: it asks nothing more, reads
    no further line and leaves the new object untouched. *)
Theorem main_unknown_stage (line : string) (rest : list string) :
  GEAR_RATIOS !! strip line = None ->
  run_main money whole float_of_str strip lower (line :: rest) =
  (inr Return_,
   {| stdin := rest;
      stdout := banner whole
                ++ [Prompt prompt_stage; Print (error_stage (strip line))];
      heap := new_gearbox |}).
Proof. intros Hk. rewrite run_main_cases, Hk. reflexivity. Qed.

(** X12. With a known stage and an income text that [float] rejects or
    that denotes a negative number, [main] prints the matching error and
    returns: the stage stays selected, nothing is calculated or plotted,
    and the third line is not read. *)
Theorem main_rejected_income (line text : string) (rest : list string) :
  is_Some (GEAR_RATIOS !! strip line) ->
  (float_of_str text = None \/
   exists x, float_of_str text = Some x /\ (x <? 0)%float = true) ->
  run_main money whole float_of_str strip lower (line :: text :: rest) =
  (inr Return_,
   {| stdin := rest;
      stdout := banner whole
                ++ [Prompt prompt_stage; Prompt prompt_income;
                    Print (match float_of_str text with
                           | None => error_number
                           | Some _ => error_negative
                           end)];
      heap := set_self new_gearbox
                {| current_stage := Some (strip line); income := 0;
                   allocations := ∅ |} |}).
Proof.
  intros [[[rs re] ri] Hk] Hbad. rewrite run_main_cases, Hk. cbv zeta.
  destruct Hbad as [Hn|(x & Hx & Hneg)].
  - rewrite Hn, <- app_assoc. reflexivity.
  - rewrite Hx, Hneg, <- app_assoc. reflexivity.
Qed.

(** X13. With a known stage, an income text that [float] accepts as a
    number that is not negative, and an answer to the last question, [main]
    ends normally: it prints the report of the allocation of that income
    for that stage, then calls the pie plot if the answer, stripped and
    lowered, is pie or both, and after it the bar plot if it is bar or
    both. *)
Theorem main_allocates
        (line text answer : string) (rest : list string)
        (x rs re ri : float) :
  GEAR_RATIOS !! strip line = Some (rs, re, ri) ->
  float_of_str text = Some x ->
  (x <? 0)%float = false ->
  run_main money whole float_of_str strip lower
           (line :: text :: answer :: rest) =
  (inl tt,
   {| stdin := rest;
      stdout := banner whole
                ++ [Prompt prompt_stage; Prompt prompt_income]
                ++ (Print <$> report money (Some (strip line)) x
                                (x * rs) (x * re) (x * ri))
                ++ [Prompt prompt_charts]
                ++ charts strip lower answer;
      heap := set_self new_gearbox
                {| current_stage := Some (strip line); income := x;
                   allocations := allocation_of x rs re ri |} |}).
Proof.
  intros Hk Hx Hpos. rewrite run_main_cases, Hk, Hx, Hpos. cbv zeta.
  repeat rewrite <- app_assoc. reflexivity.
Qed.

(** X14. No exception of the gearbox escapes [main]: whatever the input
    lines and whatever [float], [strip] and [lower] do, [main] ends
    normally, by a [return] after an error message, or with the [EOFError]
    of an exhausted input; it calls [calculate_allocation] only where the
    call returns. *)
Theorem main_no_gearbox_error (lines : list string) (e : exn) :
  fst (run_main money whole float_of_str strip lower lines)
  <> inr (Uncaught e).
Proof.
  rewrite run_main_cases.
  destruct lines as [|line lines]; [discriminate|].
  destruct (GEAR_RATIOS !! strip line) as [[[rs re] ri]|]; [|discriminate].
  cbv zeta. destruct lines as [|text lines]; [discriminate|].
  destruct (float_of_str text) as [x|]; [|discriminate].
  destruct (x <? 0)%float; [discriminate|].
  destruct lines as [|answer lines]; discriminate.
Qed.
End MainProofs.

Lemma main_unknown_stage_witness :
  run_main (fun _ => "") (fun _ => "") (fun _ => None) id id
           ["Unemployed"; "50000"] =
  (inr Return_,
   {| stdin := ["50000"];
      stdout := banner (fun _ => "")
                ++ [Prompt prompt_stage; Print (error_stage "Unemployed")];
      heap := new_gearbox |}).
Proof.
  apply (main_unknown_stage (fun _ => "") (fun _ => "") (fun _ => None)
           id id "Unemployed" ["50000"]).
  reflexivity.
Defined.

Lemma main_rejected_income_witness :
  run_main (fun _ => "") (fun _ => "") (fun _ => Some (-1)%float) id id
           ["Family"; "-1"; "both"] =
  (inr Return_,
   {| stdin := ["both"];
      stdout := banner (fun _ => "")
                ++ [Prompt prompt_stage; Prompt prompt_income;
                    Print error_negative];
      heap := set_self new_gearbox
                {| current_stage := Some "Family"; income := 0;
                   allocations := ∅ |} |}).
Proof.
  apply (main_rejected_income (fun _ => "") (fun _ => "")
           (fun _ => Some (-1)%float) id id "Family" "-1" ["both"]).
  - eexists. reflexivity.
  - right. exists (-1)%float. split; reflexivity.
Defined.

Lemma main_allocates_witness :
  fst (run_main (fun _ => "") (fun _ => "") (fun _ => Some 50000%float)
                id id ["Student"; "50000"; "pie"]) = inl tt.
Proof.
  rewrite (main_allocates (fun _ => "") (fun _ => "")
             (fun _ => Some 50000%float) id id "Student" "50000" "pie" []
             50000 0.10 0.80 0.10); reflexivity.
Defined.

Lemma display_after_calculate_witness :
  let σ := store_of (set_life_stage "Student" new_gearbox) in
  let σ' := store_of (calculate_allocation 50000 σ) in
  display_allocation (fun _ => "") σ' =
  Returned (report (fun _ => "") (Some "Student") 50000
              (50000 * 0.10) (50000 * 0.80) (50000 * 0.10)) σ'.
Proof.
  intros σ.
  apply (display_after_calculate (fun _ => "") σ "Student"
           0.10 0.80 0.10 50000); reflexivity.
Defined.

Lemma display_after_stage_change_witness :
  let σ := store_of (calculate_allocation 50000
             (store_of (set_life_stage "Student" new_gearbox))) in
  let σ' := store_of (set_life_stage "Retirement" σ) in
  display_allocation (fun _ => "") σ' =
  Returned (report (fun _ => "") (Some "Retirement") 50000
              5000 40000 5000) σ'.
Proof.
  intros σ.
  apply (display_after_stage_change (fun _ => "") σ "Retirement"
           5000 40000 5000);
    first [reflexivity | eexists; reflexivity].
Defined.

Lemma amounts_between_zero_and_income_witness :
  let σ := store_of (set_life_stage "Student" new_gearbox) in
  exists m σ' s e i,
    calculate_allocation 0x3p-1074 σ = Returned m σ' /\
    m !! "Savings" = Some s /\ m !! "Expenses" = Some e /\
    m !! "Investments" = Some i /\
    amount_in_range s 0x3p-1074 /\ amount_in_range e 0x3p-1074 /\
    amount_in_range i 0x3p-1074.
Proof.
  intros σ.
  apply (amounts_between_zero_and_income σ "Student" 0x3p-1074);
    first [reflexivity | apply elem_of_dom; eexists; reflexivity].
Defined.

Lemma allocation_sum_error_witness :
  let σ := store_of (set_life_stage "Student" new_gearbox) in
  exists m σ' s e i,
    calculate_allocation 0x3p-1074 σ = Returned m σ' /\
    m !! "Savings" = Some s /\ m !! "Expenses" = Some e /\
    m !! "Investments" = Some i /\
    exact_sum_error_bounded s e i 0x3p-1074.
Proof.
  intros σ.
  apply (allocation_sum_error σ "Student" 0x3p-1074);
    first [reflexivity | apply elem_of_dom; eexists; reflexivity].
Defined.

Lemma amounts_match_percentages_witness :
  let σ := store_of (set_life_stage "Family" new_gearbox) in
  exists m σ' s e i,
    calculate_allocation 123456.78 σ = Returned m σ' /\
    m !! "Savings" = Some s /\ m !! "Expenses" = Some e /\
    m !! "Investments" = Some i /\
    within_1e9_of_percent s 123456.78 25 /\
    within_1e9_of_percent e 123456.78 55 /\
    within_1e9_of_percent i 123456.78 20.
Proof.
  intros σ.
  apply (amounts_match_percentages σ "Family" 123456.78 25 55 20);
    first [reflexivity | right; split; reflexivity].
Defined.

Lemma nonfinite_income_accepted_witness :
  let σ := store_of (set_life_stage "First Job" new_gearbox) in
  exists σ',
    calculate_allocation infinity σ =
      Returned (<["Savings" := infinity]>
                (<["Expenses" := infinity]>
                (<["Investments" := infinity]> ∅))) σ'.
Proof.
  intros σ.
  destruct (nonfinite_income_accepted σ "First Job" infinity) as [_ H];
    [reflexivity | reflexivity
    | apply elem_of_dom; eexists; reflexivity |].
  exact (H eq_refl).
Defined.
